(** * FamilyTime backend: a shallow embedding of [src/server.js]

    The server is an Express application over three Mongoose collections of
    schedule records (classes, exams, notes) and one collection of users.
    Every route handler is embedded as a function from the store to a new
    store and the response sent.  The collaborators that live outside the
    repository (bcrypt, jsonwebtoken, Mongoose's casts and query casting,
    [Math.random]) are the fields of a record [Env]. *)

From Stdlib Require Import ZArith QArith Qround Lia Ascii String.
From stdpp Require Import base strings list gmap.

Close Scope Q_scope.
Open Scope string_scope.
Open Scope list_scope.

(** ** JavaScript values and string primitives *)

(** Mongo object ids.  The hexadecimal rendering is immaterial to the
    handlers: they only mint ids and compare them. *)
Definition ObjectId := nat.

(** The values a parsed JSON body can hold.  [VOid o] stands for a value
    that Mongoose casts to the object id [o] (an [ObjectId] instance or its
    24-digit hexadecimal string). *)
#[local] Unset Elimination Schemes.
Inductive JsVal :=
| VNull
| VBool (b : bool)
| VNum (q : Q)
| VStr (s : string)
| VOid (o : ObjectId)
| VArr (items : list JsVal)
| VObj (props : list (string * JsVal)).
#[local] Set Elimination Schemes.

(** Truthiness of a string-or-undefined value: [undefined] and the empty
    string are falsy, any other string is truthy. *)
Definition truthy (v : option string) : bool :=
  match v with
  | None => false
  | Some s => negb (String.eqb s "")
  end.

(** Truthiness of a value of a JSON body, [None] being a missing key:
    [undefined], [null], [false], [0] and the empty string are falsy,
    everything else, arrays and objects included, is truthy. *)
Definition truthy_val (v : option JsVal) : bool :=
  match v with
  | None => false
  | Some VNull => false
  | Some (VBool b) => b
  | Some (VNum q) => negb (Qeq_bool q 0)
  | Some (VStr s) => negb (String.eqb s "")
  | Some _ => true
  end.

(** [s === v] for a string [s]: only an equal string is strictly equal. *)
Definition strict_eq (s : string) (v : JsVal) : bool :=
  match v with
  | VStr n => String.eqb s n
  | _ => false
  end.

(** [s.split(' ')]: the segments between single space characters. *)
Fixpoint split_space (s : string) : list string :=
  match s with
  | EmptyString => [""]
  | String c s' =>
      if Ascii.eqb c (" ")%char then "" :: split_space s'
      else match split_space s' with
           | [] => [String c ""]
           | seg :: rest => String c seg :: rest
           end
  end.

Fixpoint has_space (s : string) : bool :=
  match s with
  | EmptyString => false
  | String c s' => Ascii.eqb c (" ")%char || has_space s'
  end.

(** [s.charAt(i)]: the one-character string at index [i], or the empty
    string when [i] is out of range. *)
Definition charAt (s : string) (i : Z) : string :=
  if (i <? 0)%Z then ""
  else match String.get (Z.to_nat i) s with
       | Some c => String c ""
       | None => ""
       end.

(** ** Documents *)

(** An entry of [UserSchema.viewers]; [joinedAt] defaults to [Date.now].
    The id Mongoose gives each entry is never read by the server and is
    left out. *)
Record Viewer := mkViewer {
  name : string;
  joinedAt : Z
}.

(** [UserSchema] *)
Record User := mkUser {
  _id : ObjectId;
  username : string;
  password_hash : string;
  family_code : string;
  viewers : list Viewer
}.

(** The three record collections share one shape: [ClassSchema],
    [ExamSchema] and [NoteSchema] each hold a required [owner_id] and a set
    of optional typed paths. *)
Inductive Kind := Class | Exam | Note.

#[global] Instance Kind_eq_dec : EqDecision Kind.
Proof. solve_decision. Defined.

Inductive SchemaType := TString | TNumber | TBoolean | TDate.

Definition schema_paths (k : Kind) : list (string * SchemaType) :=
  match k with
  | Class => [("subject", TString); ("weekday", TNumber);
              ("start_hour", TNumber); ("start_minute", TNumber);
              ("end_hour", TNumber); ("end_minute", TNumber);
              ("is_break", TBoolean)]
  | Exam => [("subject", TString); ("date", TDate);
             ("time_hour", TNumber); ("time_minute", TNumber);
             ("syllabus", TString)]
  | Note => [("content", TString)]
  end.

Record Doc := mkDoc {
  doc_id : ObjectId;
  owner_id : ObjectId;
  fields : gmap string JsVal
}.

(** ** The store *)

Record World := mkWorld {
  users : list User;
  classes : list Doc;
  exams : list Doc;
  notes : list Doc;
  next_oid : nat;      (* source of fresh object ids *)
  rand_calls : nat     (* number of [Math.random()] calls made so far *)
}.

Definition init : World := mkWorld [] [] [] [] 0 0.

Definition collection (k : Kind) (w : World) : list Doc :=
  match k with
  | Class => classes w
  | Exam => exams w
  | Note => notes w
  end.

Definition set_users (us : list User) (w : World) : World :=
  mkWorld us (classes w) (exams w) (notes w) (next_oid w) (rand_calls w).

Definition set_collection (k : Kind) (ds : list Doc) (w : World) : World :=
  match k with
  | Class => mkWorld (users w) ds (exams w) (notes w) (next_oid w) (rand_calls w)
  | Exam => mkWorld (users w) (classes w) ds (notes w) (next_oid w) (rand_calls w)
  | Note => mkWorld (users w) (classes w) (exams w) ds (next_oid w) (rand_calls w)
  end.

Definition set_rand_calls (n : nat) (w : World) : World :=
  mkWorld (users w) (classes w) (exams w) (notes w) (next_oid w) n.

(** A new document draws its [_id] when it is constructed. *)
Definition fresh_oid (w : World) : ObjectId * World :=
  (next_oid w,
   mkWorld (users w) (classes w) (exams w) (notes w) (S (next_oid w)) (rand_calls w)).

(** ** Responses *)

(** What a rejected promise or a thrown error carries. *)
Inductive Exn :=
| ValidationError     (* Mongoose: a required path is empty or a cast failed *)
| DuplicateKeyError   (* MongoDB E11000: a unique index rejects the insert *)
| CastError           (* Mongoose: a query value or an id does not cast *)
| IllegalArguments.   (* bcryptjs: the password is not a string *)

(** The text of an [error] field: a literal of the source, or [e.message]. *)
Inductive ErrorText :=
| Lit (s : string)
| Message (e : Exn).

Inductive Body :=
| BText (s : string)                             (* res.send(...) *)
| BError (e : ErrorText)                         (* { error } *)
| BUserCreated (code : string)                   (* { message: "User created", family_code } *)
| BSession (token : string) (code : string)      (* { token, family_code } *)
| BJoined (code : option JsVal)                  (* { message: "Joined", family_code: code } *)
| BLeft                                          (* { message: "Left family" } *)
| BViewers (vs : list Viewer)
| BRecords (ds : list Doc)
| BRecord (d : Doc)
| BDeleted.                                      (* { message: "Deleted" } *)

Record Response := mkResponse {
  status : nat;
  body : Body
}.

Definition json (b : Body) : Response := mkResponse 200 b.
Definition error (code : nat) (msg : string) : Response :=
  mkResponse code (BError (Lit msg)).
Definition failure (e : Exn) : Response :=
  mkResponse 500 (BError (Message e)).

(** ** Queries *)

(** [User.findOne({ username })] *)
Definition findOne_username (u : string) (w : World) : option User :=
  find (fun x => String.eqb (username x) u) (users w).

(** [User.findOne({ family_code: code })] *)
Definition findOne_family_code (code : string) (w : World) : option User :=
  find (fun x => String.eqb (family_code x) code) (users w).

(** [User.findById(id)] *)
Definition findById (id : ObjectId) (w : World) : option User :=
  find (fun x => Nat.eqb (_id x) id) (users w).

(** [Model.find({ owner_id })] *)
Definition find_owner (k : Kind) (owner : ObjectId) (w : World) : list Doc :=
  filter (fun d => owner_id d = owner) (collection k w).

(** [Model.deleteOne({ _id, owner_id })]: the first document matching both
    conditions is removed, if there is one. *)
Fixpoint remove_first (id owner : ObjectId) (ds : list Doc) : list Doc :=
  match ds with
  | [] => []
  | d :: ds' =>
      if Nat.eqb (doc_id d) id && Nat.eqb (owner_id d) owner then ds'
      else d :: remove_first id owner ds'
  end.

Definition deleteOne (k : Kind) (id owner : ObjectId) (w : World) : World :=
  set_collection k (remove_first id owner (collection k w)) w.

(** The [required: true] validator of a String path rejects the empty
    string. *)
Definition validate_user (u : User) : bool :=
  negb (String.eqb (username u) "")
  && negb (String.eqb (password_hash u) "")
  && negb (String.eqb (family_code u) "").

(** Saving a new user: validation, then an insert that the unique indexes
    on [_id], [username] and [family_code] can reject. *)
Definition insert_user (u : User) (w : World) : Exn + World :=
  if negb (validate_user u) then inl ValidationError
  else if existsb (fun x => Nat.eqb (_id x) (_id u)
                           || String.eqb (username x) (username u)
                           || String.eqb (family_code x) (family_code u))
                  (users w)
       then inl DuplicateKeyError
       else inr (set_users (users w ++ [u]) w).

(** Saving a loaded user whose [viewers] path was modified: an update of
    the first document with that [_id]. *)
Fixpoint update_viewers (id : ObjectId) (vs : list Viewer) (us : list User)
  : list User :=
  match us with
  | [] => []
  | u :: us' =>
      if Nat.eqb (_id u) id
      then mkUser (_id u) (username u) (password_hash u) (family_code u) vs :: us'
      else u :: update_viewers id vs us'
  end.

Definition save_viewers (u : User) (vs : list Viewer) (w : World) : World :=
  set_users (update_viewers (_id u) vs (users w)) w.

(** ** The server *)

(** The collaborators of the process, fixed when it starts. *)
Record Env := mkEnv {
  (** [Math.random()]: the [n]-th call returns [Math_random n]. *)
  Math_random : nat -> Q;
  (** [bcrypt.hash(password, 10)] and [bcrypt.compare(password, hash)]. *)
  bcrypt_hash : string -> string;
  bcrypt_compare : string -> string -> bool;
  (** [jwt.sign({ id }, JWT_SECRET, { expiresIn: '7d' })] at a given time,
      and [jwt.verify(token, JWT_SECRET)] on a string token: the [id] claim
      of a token that verifies at that time. *)
  jwt_sign : ObjectId -> Z -> string;
  jwt_verify : string -> Z -> option ObjectId;
  (** Mongoose's casting of a value to the type of a schema path. *)
  mongoose_cast : SchemaType -> JsVal -> option JsVal;
  (** Mongoose's cast of a route parameter to an object id. *)
  castObjectId : string -> option ObjectId;
  (** How a filter value that is not a string selects on a String path:
      the test the cast query makes on the stored string (a number is
      compared as its text, an operator object such as [{ $ne: null }] by
      its operators), or the error thrown when the value does not cast. *)
  mongoose_query : option JsVal -> Exn + (string -> bool);
  (** The text that Mongoose's String cast gives a value that is not a
      string, as its first character and the rest: the text of a number or
      of a boolean is never empty.  [None] for a value that does not cast
      (an array, a plain object). *)
  cast_text : JsVal -> option (ascii * string)
}.

Section Server.

Variable env : Env.

(** *** Helpers *)

Definition chars : string := "ABCDEFGHJKLMNPQRSTUVWXYZ23456789".

(** [Math.floor(r * chars.length)] *)
Definition random_index (r : Q) : Z :=
  Qfloor (r * inject_Z (Z.of_nat (String.length chars))).

(** The loop of [generateCode], [n] iterations left, [calls] random numbers
    drawn so far. *)
Fixpoint generateCode_loop (n calls : nat) (result : string) : string * nat :=
  match n with
  | O => (result, calls)
  | S n' =>
      generateCode_loop n' (S calls)
        (result +:+ charAt chars (random_index (Math_random env calls)))
  end.

Definition generateCode (w : World) : string * World :=
  let '(result, calls) := generateCode_loop 5 (rand_calls w) "" in
  (result, set_rand_calls calls w).

(** *** Middleware *)

(** [jwt.verify] throws when the token is [undefined]. *)
Definition verify (token : option string) (now : Z) : option ObjectId :=
  match token with
  | None => None
  | Some t => jwt_verify env t now
  end.

(** [authenticate]: either the response that ends the request, or the
    [req.userId] handed to the route. *)
Definition authenticate (authHeader : option string) (now : Z)
  : Response + ObjectId :=
  match authHeader with
  | None => inl (error 401 "Access denied")
  | Some h =>
      if negb (truthy (Some h)) then inl (error 401 "Access denied")
      else
        let token := split_space h !! 1 in
        match verify token now with
        | Some id => inr id
        | None => inl (error 401 "Invalid Token")
        end
  end.

(** A handler's outcome: the new store and the response it sent; [None]
    when the handler's promise rejects before any response is written. *)
Definition Outcome : Type := World * option Response.

Definition authenticated (authHeader : option string) (now : Z)
    (route : ObjectId -> World -> Outcome) (w : World) : Outcome :=
  match authenticate authHeader now with
  | inl r => (w, Some r)
  | inr userId => route userId w
  end.

(** *** Routes: accounts and viewers *)

(** [POST /auth/register] *)
Definition register (uname password : string) (w : World) : Outcome :=
  match findOne_username uname w with
  | Some _ => (w, Some (error 400 "Username already exists"))
  | None =>
      let hash := bcrypt_hash env password in
      let '(code, w1) := generateCode w in
      let '(id, w2) := fresh_oid w1 in
      let newUser := mkUser id uname hash code [] in
      match insert_user newUser w2 with
      | inr w3 => (w3, Some (json (BUserCreated code)))
      | inl e => (w2, Some (failure e))
      end
  end.

(** A String path of a filter: a string selects the equal strings, any
    other value goes through Mongoose's query casting. *)
Definition resolve (field : User -> string) (v : option JsVal) (w : World)
  : Exn + option User :=
  match mongoose_query env v with
  | inl e => inl e
  | inr test => inr (find (fun x => test (field x)) (users w))
  end.

(** [User.findOne({ username })] on a value of the body *)
Definition resolve_username (v : option JsVal) (w : World) : Exn + option User :=
  match v with
  | Some (VStr u) => inr (findOne_username u w)
  | _ => resolve username v w
  end.

(** [User.findOne({ family_code: code })] on a value of the body *)
Definition resolve_code (v : option JsVal) (w : World) : Exn + option User :=
  match v with
  | Some (VStr code) => inr (findOne_family_code code w)
  | _ => resolve family_code v w
  end.

(** Mongoose's String cast of a viewer's name: a string is kept, another
    value becomes its text or fails to cast. *)
Definition castString (v : JsVal) : option string :=
  match v with
  | VStr s => Some s
  | _ => match cast_text env v with
         | Some (c, rest) => Some (String c rest)
         | None => None
         end
  end.

(** [POST /auth/login].  [bcrypt.compare] rejects a password that is not a
    string, and the [catch] answers 500. *)
Definition login (uname password : option JsVal) (now : Z) (w : World)
  : Outcome :=
  match resolve_username uname w with
  | inl e => (w, Some (failure e))
  | inr None => (w, Some (error 400 "Invalid credentials"))
  | inr (Some user) =>
      match password with
      | Some (VStr p) =>
          if bcrypt_compare env p (password_hash user)
          then (w, Some (json (BSession (jwt_sign env (_id user) now)
                                        (family_code user))))
          else (w, Some (error 400 "Invalid credentials"))
      | _ => (w, Some (failure IllegalArguments))
      end
  end.

(** [POST /auth/join].  The name is looked for with [===] and stored as
    its String cast; a name that does not cast makes [save()] reject. *)
Definition join (code nm : option JsVal) (now : Z) (w : World) : Outcome :=
  match resolve_code code w with
  | inl e => (w, Some (failure e))
  | inr None => (w, Some (error 404 "Invalid Access Code"))
  | inr (Some user) =>
      match nm with
      | Some n =>
          if truthy_val (Some n) then
            match find (fun v => strict_eq (name v) n) (viewers user) with
            | Some _ => (w, Some (json (BJoined code)))
            | None =>
                match castString n with
                | Some s =>
                    (save_viewers user (viewers user ++ [mkViewer s now]) w,
                     Some (json (BJoined code)))
                | None => (w, Some (failure ValidationError))
                end
            end
          else (w, Some (json (BJoined code)))
      | None => (w, Some (json (BJoined code)))
      end
  end.

(** [POST /auth/leave] *)
Definition leave (code nm : option JsVal) (w : World) : Outcome :=
  match resolve_code code w with
  | inl e => (w, Some (failure e))
  | inr None => (w, Some (error 404 "Invalid Access Code"))
  | inr (Some user) =>
      match nm with
      | Some n =>
          if truthy_val (Some n)
          then (save_viewers user
                  (filter (fun v => strict_eq (name v) n = false) (viewers user)) w,
                Some (json BLeft))
          else (w, Some (json BLeft))
      | None => (w, Some (json BLeft))
      end
  end.

(** [GET /viewers] *)
Definition get_viewers (authHeader : option string) (now : Z) (w : World)
  : Outcome :=
  authenticated authHeader now (fun userId w =>
    match findById userId w with
    | None => (w, Some (error 404 "User not found"))
    | Some user => (w, Some (json (BViewers (viewers user))))
    end) w.

(** *** Routes: schedule records *)

(** [{ ...req.body, owner_id: req.userId }] *)
Definition spread_owner (body : gmap string JsVal) (userId : ObjectId)
  : gmap string JsVal :=
  <["owner_id" := VOid userId]> body.

(** The typed paths of a new document: every schema path present in the
    object is cast; paths outside the schema are dropped. *)
Fixpoint cast_paths (paths : list (string * SchemaType))
    (obj : gmap string JsVal) : option (gmap string JsVal) :=
  match paths with
  | [] => Some ∅
  | (p, t) :: paths' =>
      match cast_paths paths' obj with
      | None => None
      | Some m =>
          match obj !! p with
          | None => Some m
          | Some v =>
              match mongoose_cast env t v with
              | Some v' => Some (<[p := v']> m)
              | None => None
              end
          end
      end
  end.

(** [new Model(obj)] followed by the validation of [save()]: the [_id] is
    the one given in [obj] or else a fresh one, [owner_id] is required and
    must cast to an object id. *)
Definition new_doc (k : Kind) (obj : gmap string JsVal) (w : World)
  : (Exn + Doc) * World :=
  let '(id, w1) :=
    match obj !! "_id" with
    | None => let '(i, w1) := fresh_oid w in (Some i, w1)
    | Some (VOid i) => (Some i, w)
    | Some _ => (None, w)
    end in
  match id, obj !! "owner_id", cast_paths (schema_paths k) obj with
  | Some i, Some (VOid o), Some fs => (inr (mkDoc i o fs), w1)
  | _, _, _ => (inl ValidationError, w1)
  end.

(** The insert of [save()]: the [_id] index of the collection is unique. *)
Definition insert_doc (k : Kind) (d : Doc) (w : World) : Exn + World :=
  if existsb (fun x => Nat.eqb (doc_id x) (doc_id d)) (collection k w)
  then inl DuplicateKeyError
  else inr (set_collection k (collection k w ++ [d]) w).

(** [GET /classes], [GET /exams], [GET /notes] *)
Definition list_owned (k : Kind) (authHeader : option string) (now : Z)
    (w : World) : Outcome :=
  authenticated authHeader now (fun userId w =>
    (w, Some (json (BRecords (find_owner k userId w))))) w.

(** [POST /classes], [POST /exams], [POST /notes].  These handlers have no
    [try]: when [save()] rejects, no response is written. *)
Definition create (k : Kind) (authHeader : option string)
    (reqBody : gmap string JsVal) (now : Z) (w : World) : Outcome :=
  authenticated authHeader now (fun userId w =>
    match new_doc k (spread_owner reqBody userId) w with
    | (inl _, w1) => (w1, None)
    | (inr newDoc, w1) =>
        match insert_doc k newDoc w1 with
        | inl _ => (w1, None)
        | inr w2 => (w2, Some (json (BRecord newDoc)))
        end
    end) w.

(** [DELETE /classes/:id], [DELETE /exams/:id], [DELETE /notes/:id].  The
    route parameter is a free string: when it does not cast to an object
    id, [deleteOne] throws and the [catch] answers 500. *)
Definition delete (k : Kind) (authHeader : option string) (id : string)
    (now : Z) (w : World) : Outcome :=
  authenticated authHeader now (fun userId w =>
    match castObjectId env id with
    | Some oid => (deleteOne k oid userId w, Some (json BDeleted))
    | None => (w, Some (failure CastError))
    end) w.

(** [GET /public/classes], [GET /public/exams], [GET /public/notes] *)
Definition list_public (k : Kind) (code : string) (w : World) : Outcome :=
  match findOne_family_code code w with
  | None => (w, Some (error 404 "Invalid Access Code"))
  | Some user => (w, Some (json (BRecords (find_owner k (_id user) w))))
  end.

(** *** The server as a transition system *)

Inductive Request :=
| Health
| Register (uname password : string)
| Login (uname password : option JsVal)
| Join (code nm : option JsVal)
| Leave (code nm : option JsVal)
| GetViewers (authHeader : option string)
| ListPublic (k : Kind) (code : string)
| ListOwned (k : Kind) (authHeader : option string)
| Create (k : Kind) (authHeader : option string) (reqBody : gmap string JsVal)
| Delete (k : Kind) (authHeader : option string) (id : string).

(** One request handled at time [now]. *)
Definition handle (now : Z) (req : Request) (w : World) : Outcome :=
  match req with
  | Health => (w, Some (json (BText "✅ Server is Running!")))
  | Register u p => register u p w
  | Login u p => login u p now w
  | Join c n => join c n now w
  | Leave c n => leave c n w
  | GetViewers h => get_viewers h now w
  | ListPublic k c => list_public k c w
  | ListOwned k h => list_owned k h now w
  | Create k h b => create k h b now w
  | Delete k h i => delete k h i now w
  end.

(** The stores the server can be in: it starts empty and handles requests
    one after the other, whatever JSON values their bodies carry. *)
Inductive reachable : World -> Prop :=
| reachable_init : reachable init
| reachable_step now req w : reachable w -> reachable (handle now req w).1.

End Server.

(** ** The access-code alphabet, as the specification words it *)

(** Uppercase letters and digits, without the look-alikes I, O, 0 and 1. *)
Definition is_code_symbol (c : ascii) : bool :=
  let n := nat_of_ascii c in
  (Nat.leb 65 n && Nat.leb n 90 || Nat.leb 48 n && Nat.leb n 57)
  && negb (existsb (Ascii.eqb c) ["I"; "O"; "0"; "1"]%char).

(** ** Sample collaborators and stores *)

(** A deterministic generator: the first ten draws are [0]; from then on
    the [n]-th draw is [((n / 5 - 1) mod 32) / 32], so that five consecutive
    draws starting at a multiple of five select the same symbol. *)
Definition sample_random (n : nat) : Q :=
  if Nat.ltb n 10 then 0%Q
  else (Z.of_nat ((n / 5 - 1) mod 32) # 32)%Q.

(** Twenty-four hexadecimal digits cast to the id they write. *)
Definition hex_digit (c : ascii) : option nat :=
  let n := nat_of_ascii c in
  if Nat.leb 48 n && Nat.leb n 57 then Some (n - 48)
  else if Nat.leb 97 n && Nat.leb n 102 then Some (n - 87)
  else if Nat.leb 65 n && Nat.leb n 70 then Some (n - 55)
  else None.

Fixpoint hex_value (acc : nat) (s : string) : option nat :=
  match s with
  | EmptyString => Some acc
  | String c s' =>
      match hex_digit c with
      | Some d => hex_value (16 * acc + d) s'
      | None => None
      end
  end.

Definition sample_castObjectId (s : string) : option ObjectId :=
  if Nat.eqb (String.length s) 24 then hex_value 0 s else None.

(** Filter values other than strings: [null] and a missing key select
    nothing, [{ $ne: null }] selects everything, anything else fails to
    cast. *)
Definition sample_query (v : option JsVal) : Exn + (string -> bool) :=
  match v with
  | None | Some VNull => inr (fun _ => false)
  | Some (VObj [("$ne", VNull)]) => inr (fun _ => true)
  | _ => inl CastError
  end.

(** The text of the numbers five and zero and of the booleans. *)
Definition sample_text (v : JsVal) : option (ascii * string) :=
  match v with
  | VBool true => Some ("t"%char, "rue")
  | VBool false => Some ("f"%char, "alse")
  | VNum q => if Qeq_bool q 5 then Some ("5"%char, "")
              else if Qeq_bool q 0 then Some ("0"%char, "")
              else None
  | _ => None
  end.

Definition sample_env : Env := {|
  Math_random := sample_random;
  bcrypt_hash := fun password => "$2a$10$" +:+ password;
  bcrypt_compare := fun password hash => String.eqb ("$2a$10$" +:+ password) hash;
  jwt_sign := fun id _ => "jwt." +:+ string_of_list_ascii (replicate id "i"%char);
  jwt_verify := fun token _ =>
    if String.prefix "jwt." token then Some (String.length token - 4) else None;
  mongoose_cast := fun _ v => Some v;
  castObjectId := sample_castObjectId;
  mongoose_query := sample_query;
  cast_text := sample_text
|}.

(** alice registers at time 0, logs in, and her mother joins by code. *)
Definition world_alice : World :=
  (handle sample_env 0 (Register "alice" "pw1") init).1.

Definition world_alice_mom : World :=
  (handle sample_env 5 (Join (Some (VStr "AAAAA")) (Some (VStr "Mom")))
     world_alice).1.

Definition alice_token : string := jwt_sign sample_env 0 0.

(** alice (id 0) posts a note whose body names owner 7. *)
Definition forged_note : gmap string JsVal :=
  <["owner_id" := VOid 7]> (<["content" := VStr "buy milk"]> ∅).

Definition world_alice_note : World :=
  (handle sample_env 9
     (Create Note (Some ("Bearer " +:+ alice_token)) forged_note)
     world_alice_mom).1.

(** Two joins that carry the number 5 as name. *)
Definition world_alice_fives : World :=
  (handle sample_env 7 (Join (Some (VStr "AAAAA")) (Some (VNum 5)))
     (handle sample_env 6 (Join (Some (VStr "AAAAA")) (Some (VNum 5)))
        world_alice).1).1.

Definition alice_with_fives : User :=
  mkUser 0 "alice" "$2a$10$pw1" "AAAAA" [mkViewer "5" 6; mkViewer "5" 7].

(** The route parameter that casts to the id of alice's note. *)
Definition note_route_id : string := "000000000000000000000001".

(** ** Well-formed stores *)

(** A viewer list never holds the empty name. *)
Definition viewers_ok (vs : list Viewer) : Prop :=
  "" ∉ (name <$> vs).

(** User ids are pairwise different and every viewer list is well formed. *)
Definition store_ok (w : World) : Prop :=
  NoDup (_id <$> users w)
  /\ Forall (fun u => viewers_ok (viewers u)) (users w).

(** alice's user document, before and after her mother has joined. *)
Definition alice_user : User :=
  mkUser 0 "alice" "$2a$10$pw1" "AAAAA" [].

Definition alice_with_mom : User :=
  mkUser 0 "alice" "$2a$10$pw1" "AAAAA" [mkViewer "Mom" 5].

(** The part of a user document that registration fixes. *)
Definition account (u : User) : ObjectId * string * string * string :=
  (_id u, username u, password_hash u, family_code u).

(** Ids, usernames and access codes identify a user; every stored user
    passed validation and carries an id that has been drawn. *)
Definition accounts_ok (w : World) : Prop :=
  NoDup (_id <$> users w)
  /\ NoDup (username <$> users w)
  /\ NoDup (family_code <$> users w)
  /\ Forall (fun u => validate_user u = true /\ _id u < next_oid w) (users w).

(** Within a collection an [_id] occurs once. *)
Definition records_ok (w : World) : Prop :=
  forall k, NoDup (doc_id <$> collection k w).

(** The note that [world_alice_note] holds. *)
Definition alice_note : Doc :=
  mkDoc 1 0 (<["content" := VStr "buy milk"]> ∅).

(** * Properties *)

(** ** The authentication middleware *)

Section Middleware.

Variable env : Env.

(** A string without a space is its own single segment. *)
Lemma split_space_whole s : has_space s = false -> split_space s = [s].
Proof.
  induction s as [|c s IH]; simpl; [done|].
  destruct (Ascii.eqb c " "); simpl; [done|].
  intros Hs. by rewrite (IH Hs).
Qed.

(** The first space ends the first segment. *)
Lemma split_space_first a b :
  has_space a = false ->
  split_space (a +:+ " " +:+ b) = a :: split_space b.
Proof.
  induction a as [|c a IH]; simpl; [done|].
  destruct (Ascii.eqb c " "); simpl; [done|].
  intros Ha. by rewrite (IH Ha).
Qed.

Lemma truthy_nonempty s : s <> "" -> truthy (Some s) = true.
Proof.
  intros Hs. unfold truthy. destruct (String.eqb_spec s ""); done.
Qed.

(** Behind the falsy guard the middleware verifies element 1 of the split
    header, whatever element 0 is. *)
Lemma authenticate_second_part h now :
  h <> "" ->
  authenticate env (Some h) now =
    match verify env (split_space h !! 1) now with
    | Some id => inr id
    | None => inl (error 401 "Invalid Token")
    end.
Proof.
  intros Hh. unfold authenticate. by rewrite (truthy_nonempty _ Hh).
Qed.

Lemma scheme_header_nonempty scheme tok : scheme +:+ " " +:+ tok <> "".
Proof. by destruct scheme. Qed.

(** C10, first half as stated and second half restricted to non-empty
    headers: the scheme word of the Authorization header is never looked
    at.  Every non-empty header is authenticated by verifying its second
    space-separated part; a header [scheme token] is authenticated by
    verifying [token] alone, so any scheme gives the same result as
    [Bearer]; and a non-empty header [h] without a space yields an undefined
    token and is rejected with 401 "Invalid Token", not with
    "Access denied". *)
Theorem authenticate_ignores_scheme scheme tok h now :
  has_space scheme = false ->
  has_space tok = false ->
  h <> "" ->
  has_space h = false ->
  (forall g, g <> "" ->
     authenticate env (Some g) now =
       match verify env (split_space g !! 1) now with
       | Some id => inr id
       | None => inl (error 401 "Invalid Token")
       end)
  /\ split_space (scheme +:+ " " +:+ tok) !! 1 = Some tok
  /\ authenticate env (Some (scheme +:+ " " +:+ tok)) now =
       match jwt_verify env tok now with
       | Some id => inr id
       | None => inl (error 401 "Invalid Token")
       end
  /\ authenticate env (Some (scheme +:+ " " +:+ tok)) now =
       authenticate env (Some ("Bearer" +:+ " " +:+ tok)) now
  /\ split_space h !! 1 = None
  /\ authenticate env (Some h) now = inl (error 401 "Invalid Token").
Proof.
  intros Hscheme Htok Hh Hspace.
  assert (Hsplit : forall a, has_space a = false ->
            split_space (a +:+ " " +:+ tok) !! 1 = Some tok).
  { intros a Ha. rewrite (split_space_first _ _ Ha).
    by rewrite (split_space_whole _ Htok). }
  assert (Hauth : forall a, has_space a = false ->
            authenticate env (Some (a +:+ " " +:+ tok)) now =
            match jwt_verify env tok now with
            | Some id => inr id
            | None => inl (error 401 "Invalid Token")
            end).
  { intros a Ha.
    rewrite (authenticate_second_part _ _ (scheme_header_nonempty a tok)).
    by rewrite (Hsplit a Ha). }
  split; [by intros g Hg; apply authenticate_second_part|].
  split; [by apply Hsplit|].
  split; [by apply Hauth|].
  split; [by rewrite !Hauth|].
  rewrite (authenticate_second_part _ _ Hh).
  by rewrite (split_space_whole _ Hspace).
Qed.

(** The header that is absent, and the header that is present but empty,
    both stop at the first guard. *)
Lemma authenticate_falsy_header now :
  authenticate env None now = inl (error 401 "Access denied")
  /\ authenticate env (Some "") now = inl (error 401 "Access denied").
Proof. done. Qed.

End Middleware.

(** C10, counterexample to the claim as stated: the empty header contains
    no space, yet it is rejected with "Access denied" and not with
    "Invalid Token". *)
Lemma authenticate_empty_header_counterexample :
  ~ (forall env h now,
       has_space h = false ->
       authenticate env (Some h) now = inl (error 401 "Invalid Token")).
Proof.
  intros H. specialize (H sample_env "" 0%Z eq_refl). discriminate H.
Qed.

Lemma authenticate_ignores_scheme_witness :
  (has_space "Basic" = false /\ has_space alice_token = false
   /\ "Bearerjwt" <> "" /\ has_space "Bearerjwt" = false)
  /\ authenticate sample_env (Some ("Basic jwt.")) 3 = inr 0
  /\ authenticate sample_env (Some "Bearerjwt") 3 = inl (error 401 "Invalid Token").
Proof.
  assert (H1 : has_space "Basic" = false) by reflexivity.
  assert (H2 : has_space alice_token = false) by reflexivity.
  assert (H3 : "Bearerjwt" <> "") by discriminate.
  assert (H4 : has_space "Bearerjwt" = false) by reflexivity.
  split; [by repeat split|].
  destruct (authenticate_ignores_scheme sample_env "Basic" alice_token
              "Bearerjwt" 3 H1 H2 H3 H4) as (_ & _ & Ha & _ & _ & Hb).
  split; [exact Ha | exact Hb].
Defined.

(** ** Schedule records *)

Section Records.

Variable env : Env.

(** The object spread puts the session's id in [owner_id] whatever the
    body holds there. *)
Lemma spread_owner_lookup reqBody userId :
  spread_owner reqBody userId !! "owner_id" = Some (VOid userId).
Proof. unfold spread_owner. apply lookup_insert_eq. Qed.

Lemma new_doc_owner k obj w d w1 o :
  obj !! "owner_id" = Some (VOid o) ->
  new_doc env k obj w = (inr d, w1) ->
  owner_id d = o.
Proof.
  unfold new_doc. intros ->.
  destruct (obj !! "_id") as [[| | | |i| |]|]; simpl;
    try destruct (cast_paths _ _ _); intros [= <- _]; done.
Qed.

(** Building a document may draw an id but never touches a collection. *)
Lemma new_doc_frame k obj w r w1 :
  new_doc env k obj w = (r, w1) ->
  users w1 = users w /\ forall k', collection k' w1 = collection k' w.
Proof.
  unfold new_doc.
  destruct (obj !! "_id") as [[| | | |i| |]|]; simpl;
    repeat case_match; intros [= _ <-]; by split; [|intros []].
Qed.

Lemma collection_set_collection k k' ds w :
  collection k' (set_collection k ds w) =
    if decide (k' = k) then ds else collection k' w.
Proof. by destruct k, k'. Qed.

Lemma users_set_collection k ds w : users (set_collection k ds w) = users w.
Proof. by destruct k. Qed.

Lemma insert_doc_inr k d w w2 :
  insert_doc k d w = inr w2 ->
  w2 = set_collection k (collection k w ++ [d]) w.
Proof. unfold insert_doc. case_match; by intros [= <-]. Qed.

(** C1: a create request authenticated as [userId] either persists exactly
    one record, appended to the collection of its kind, returned in the
    response and owned by [userId], or persists nothing; this holds for
    every body, in particular for one whose [owner_id] names someone else.
    No other collection and no user changes. *)
Theorem create_stamps_owner k authHeader reqBody now w userId :
  authenticate env authHeader now = inr userId ->
  let out := create env k authHeader reqBody now w in
  users out.1 = users w
  /\ (forall k', k' <> k -> collection k' out.1 = collection k' w)
  /\ ((exists d, out.2 = Some (json (BRecord d))
                 /\ owner_id d = userId
                 /\ collection k out.1 = collection k w ++ [d])
      \/ (out.2 = None /\ collection k out.1 = collection k w)).
Proof.
  intros Hauth out. subst out. unfold create, authenticated. rewrite Hauth.
  destruct (new_doc env k (spread_owner reqBody userId) w) as [[e|d] w1] eqn:Hnew.
  - destruct (new_doc_frame _ _ _ _ _ Hnew) as [Hu Hc]. simpl.
    split; [done|]. split; [by intros k' _|]. right. by split.
  - destruct (new_doc_frame _ _ _ _ _ Hnew) as [Hu Hc].
    pose proof (new_doc_owner _ _ _ _ _ _ (spread_owner_lookup reqBody userId) Hnew) as Ho.
    destruct (insert_doc k d w1) as [e|w2] eqn:Hins; simpl.
    + split; [done|]. split; [by intros k' _|]. right. by split.
    + apply insert_doc_inr in Hins. subst w2.
      rewrite users_set_collection. split; [done|].
      split.
      * intros k' Hk. rewrite collection_set_collection.
        by rewrite decide_False.
      * left. exists d. split; [done|]. split; [done|].
        rewrite collection_set_collection, decide_True by done.
        by rewrite Hc.
Qed.

(** A body that brings no [_id] of its own and whose typed paths cast is
    persisted, provided the fresh id is not taken in the collection. *)
Lemma create_persists k authHeader reqBody now w userId fs :
  authenticate env authHeader now = inr userId ->
  reqBody !! "_id" = None ->
  cast_paths env (schema_paths k) (spread_owner reqBody userId) = Some fs ->
  existsb (fun x => Nat.eqb (doc_id x) (next_oid w)) (collection k w) = false ->
  (create env k authHeader reqBody now w).2 =
    Some (json (BRecord (mkDoc (next_oid w) userId fs))).
Proof.
  intros Hauth Hid Hcast Hfree. unfold create, authenticated. rewrite Hauth.
  unfold new_doc. rewrite spread_owner_lookup, Hcast.
  unfold spread_owner at 1. rewrite lookup_insert_ne, Hid by done.
  cbn [fresh_oid]. unfold insert_doc.
  replace (collection k _) with (collection k w) by by destruct k.
  cbn [doc_id]. by rewrite Hfree.
Qed.

(** Without a verified session nothing is created. *)
Lemma create_unauthenticated k authHeader reqBody now w r :
  authenticate env authHeader now = inl r ->
  create env k authHeader reqBody now w = (w, Some r).
Proof. intros H. unfold create, authenticated. by rewrite H. Qed.

Lemma remove_first_spec id owner ds :
  remove_first id owner ds = ds
  \/ exists l1 d l2, ds = l1 ++ d :: l2
                     /\ remove_first id owner ds = l1 ++ l2
                     /\ doc_id d = id /\ owner_id d = owner.
Proof.
  induction ds as [|x ds IH]; simpl; [by left|].
  destruct (Nat.eqb (doc_id x) id && Nat.eqb (owner_id x) owner) eqn:E.
  - apply andb_true_iff in E as [E1 E2].
    apply Nat.eqb_eq in E1. apply Nat.eqb_eq in E2.
    right. by exists [], x, ds.
  - destruct IH as [IH|(l1 & d & l2 & -> & IH & Hd)].
    + left. by rewrite IH.
    + right. exists (x :: l1), d, l2. simpl. by rewrite IH.
Qed.

Lemma remove_first_none id owner ds :
  (forall d, d ∈ ds -> doc_id d = id -> owner_id d <> owner) ->
  remove_first id owner ds = ds.
Proof.
  induction ds as [|x ds IH]; simpl; [done|]. intros H.
  destruct (Nat.eqb (doc_id x) id && Nat.eqb (owner_id x) owner) eqn:E.
  - apply andb_true_iff in E as [E1 E2].
    apply Nat.eqb_eq in E1. apply Nat.eqb_eq in E2.
    exfalso. eapply (H x); [by left|done|done].
  - rewrite IH; [done|]. intros d Hd. apply H. by right.
Qed.

Lemma set_collection_same k w : set_collection k (collection k w) w = w.
Proof. by destruct k, w. Qed.

(** C7, for ids that cast: for an authenticated owner, deleting a route
    id that casts to an object id which no record of the collection
    carries, or which only records of other owners carry, answers
    200 "Deleted" and leaves the whole store as it was; a route id that
    does not cast is answered 500 with the cast error's message, the store
    being left as it was too.  In every case users and the other
    collections are untouched, and the collection either stays as it was or
    loses exactly one record, which has the id the route id casts to and
    the authenticated owner's id, the answer then being 200 "Deleted". *)
Theorem delete_only_own k authHeader id now w userId :
  authenticate env authHeader now = inr userId ->
  (forall oid,
     castObjectId env id = Some oid ->
     (forall d, d ∈ collection k w -> doc_id d = oid -> owner_id d <> userId) ->
     delete env k authHeader id now w = (w, Some (json BDeleted)))
  /\ (castObjectId env id = None ->
      delete env k authHeader id now w = (w, Some (failure CastError)))
  /\ (let out := delete env k authHeader id now w in
      users out.1 = users w
      /\ (forall k', k' <> k -> collection k' out.1 = collection k' w)
      /\ (collection k out.1 = collection k w
          \/ exists l1 d l2,
               collection k w = l1 ++ d :: l2
               /\ collection k out.1 = l1 ++ l2
               /\ castObjectId env id = Some (doc_id d)
               /\ owner_id d = userId
               /\ out.2 = Some (json BDeleted))).
Proof.
  intros Hauth. unfold delete, authenticated. rewrite Hauth.
  destruct (castObjectId env id) as [oid|] eqn:Hcast.
  - unfold deleteOne. split; [|split; [done|]].
    + intros oid' [= <-] Hnone. rewrite (remove_first_none _ _ _ Hnone).
      by rewrite set_collection_same.
    + simpl. rewrite users_set_collection. split; [done|]. split.
      * intros k' Hk. rewrite collection_set_collection. by rewrite decide_False.
      * rewrite collection_set_collection, decide_True by done.
        destruct (remove_first_spec oid userId (collection k w))
          as [->|(l1 & d & l2 & Hw & Hw' & Hid & Ho)]; [by left|].
        right. exists l1, d, l2. by rewrite Hid.
  - split; [done|]. split; [done|]. simpl. split; [done|]. split; [done|].
    by left.
Qed.

(** A request that fails authentication deletes nothing. *)
Lemma delete_unauthenticated k authHeader id now w r :
  authenticate env authHeader now = inl r ->
  delete env k authHeader id now w = (w, Some r).
Proof. intros H. unfold delete, authenticated. by rewrite H. Qed.

End Records.

(** ** Accounts *)

Section Accounts.

Variable env : Env.

Lemma string_cons_append c a b : String c a +:+ b = String c (a +:+ b).
Proof. reflexivity. Qed.

Lemma list_ascii_of_string_append a b :
  list_ascii_of_string (a +:+ b) =
    list_ascii_of_string a ++ list_ascii_of_string b.
Proof.
  induction a as [|c a IH]; [done|].
  rewrite string_cons_append. simpl. by rewrite IH.
Qed.

Lemma string_length_list s : String.length s = length (list_ascii_of_string s).
Proof. induction s as [|c s IH]; simpl; [done|]. by rewrite IH. Qed.

Lemma string_append_assoc a b c : (a +:+ b) +:+ c = a +:+ (b +:+ c).
Proof.
  induction a as [|x a IH]; [done|].
  rewrite !string_cons_append. by rewrite IH.
Qed.

Lemma string_append_empty_r a : a +:+ "" = a.
Proof.
  induction a as [|x a IH]; [done|].
  rewrite string_cons_append. by rewrite IH.
Qed.

(** [chars] is the alphabet the specification describes, and it has 32
    symbols, all different. *)
Lemma chars_alphabet :
  String.length chars = 32
  /\ NoDup (list_ascii_of_string chars)
  /\ forall c, In c (list_ascii_of_string chars) <-> is_code_symbol c = true.
Proof.
  split; [reflexivity|]. split.
  - apply (bool_decide_unpack _). by vm_compute.
  - intros c.
    assert (Hmem : existsb (Ascii.eqb c) (list_ascii_of_string chars)
                   = is_code_symbol c)
      by (destruct c as [[] [] [] [] [] [] [] []]; reflexivity).
    rewrite <- Hmem, existsb_exists. split.
    + intros Hc. exists c. by rewrite Ascii.eqb_refl.
    + intros (x & Hx & E). apply Ascii.eqb_eq in E. by subst x.
Qed.

(** A draw in the unit interval selects an index of [chars]. *)
Lemma random_index_range r :
  (0 <= r)%Q -> (r < 1)%Q -> (0 <= random_index r < 32)%Z.
Proof.
  intros H0 H1. unfold random_index.
  change (inject_Z (Z.of_nat (String.length chars))) with (inject_Z 32).
  split.
  - change 0%Z with (Qfloor 0). apply Qfloor_resp_le.
    apply Qmult_le_0_compat; [done|]. by unfold Qle.
  - rewrite Zlt_Qlt. eapply Qle_lt_trans; [apply Qfloor_le|].
    eapply Qlt_le_trans.
    + apply Qmult_lt_compat_r; [reflexivity|exact H1].
    + by unfold Qle.
Qed.

Lemma charAt_chars i :
  (0 <= i < 32)%Z ->
  exists c, charAt chars i = String c "" /\ In c (list_ascii_of_string chars).
Proof.
  intros [Hlo Hhi]. unfold charAt.
  destruct (Z.ltb_spec i 0) as [?|_]; [lia|].
  assert (Hn : Z.to_nat i < 32) by lia.
  generalize dependent (Z.to_nat i). intros n Hn.
  do 32 (destruct n as [|n];
         [eexists; split; [reflexivity|]; vm_compute; tauto|]).
  lia.
Qed.

(** The loop draws once per iteration, whatever the draws are. *)
Lemma generateCode_loop_calls n calls result :
  (generateCode_loop env n calls result).2 = calls + n.
Proof.
  revert calls result. induction n as [|n IH]; intros calls result; simpl.
  - lia.
  - rewrite IH. lia.
Qed.

(** Each iteration appends one symbol of [chars]. *)
Lemma generateCode_loop_spec n calls result :
  (forall i, (0 <= Math_random env i)%Q /\ (Math_random env i < 1)%Q) ->
  exists s,
    (generateCode_loop env n calls result).1 = result +:+ s
    /\ String.length s = n
    /\ forall c, In c (list_ascii_of_string s) ->
                 In c (list_ascii_of_string chars).
Proof.
  intros Hrand. revert calls result.
  induction n as [|n IH]; intros calls result; simpl.
  - exists "". by rewrite string_append_empty_r.
  - destruct (Hrand calls) as [H0 H1].
    destruct (charAt_chars _ (random_index_range _ H0 H1)) as (c & -> & Hc).
    destruct (IH (S calls) (result +:+ String c "")) as (s & -> & Hlen & Hs).
    exists (String c s). rewrite string_append_assoc. simpl.
    split; [done|]. split; [by rewrite Hlen|].
    intros x [<-|Hx]; [done|by apply Hs].
Qed.

Lemma generateCode_calls w :
  rand_calls (generateCode env w).2 = rand_calls w + 5
  /\ users (generateCode env w).2 = users w
  /\ forall k, collection k (generateCode env w).2 = collection k w.
Proof.
  unfold generateCode.
  pose proof (generateCode_loop_calls 5 (rand_calls w) "") as H.
  destruct (generateCode_loop env 5 (rand_calls w) "") as [result calls].
  simpl in *. split; [done|]. split; [done|]. by intros [].
Qed.

Lemma generateCode_shape w :
  (forall i, (0 <= Math_random env i)%Q /\ (Math_random env i < 1)%Q) ->
  String.length (generateCode env w).1 = 5
  /\ forall c, In c (list_ascii_of_string (generateCode env w).1) ->
               In c (list_ascii_of_string chars).
Proof.
  intros Hrand. unfold generateCode.
  destruct (generateCode_loop_spec 5 (rand_calls w) "" Hrand) as (s & Hs & Hlen & Hin).
  destruct (generateCode_loop env 5 (rand_calls w) "") as [result calls].
  simpl in *. by subst result.
Qed.

(** What [register] does after the duplicate-username check. *)
Lemma register_fresh uname password w :
  findOne_username uname w = None ->
  let code := (generateCode env w).1 in
  let w2 := (fresh_oid (generateCode env w).2).2 in
  let newUser := mkUser (next_oid w) uname (bcrypt_hash env password) code [] in
  register env uname password w =
    match insert_user newUser w2 with
    | inr w3 => (w3, Some (json (BUserCreated code)))
    | inl e => (w2, Some (failure e))
    end.
Proof.
  intros Hfind. unfold register. rewrite Hfind.
  unfold generateCode.
  destruct (generateCode_loop env 5 (rand_calls w) "") as [result calls].
  reflexivity.
Qed.

Lemma insert_user_inr u w w' :
  insert_user u w = inr w' ->
  w' = set_users (users w ++ [u]) w
  /\ validate_user u = true
  /\ forall x, In x (users w) ->
       _id x <> _id u /\ username x <> username u
       /\ family_code x <> family_code u.
Proof.
  unfold insert_user.
  destruct (validate_user u); simpl; [|done].
  destruct (existsb _ (users w)) eqn:E; [done|].
  intros [= <-]. split; [done|]. split; [done|].
  intros x Hx.
  assert (Hx' : Nat.eqb (_id x) (_id u) || String.eqb (username x) (username u)
                || String.eqb (family_code x) (family_code u) = false).
  { apply not_true_iff_false. intros Ht.
    apply not_true_iff_false in E. apply E.
    apply existsb_exists. by exists x. }
  apply orb_false_iff in Hx' as [Hx' H3]. apply orb_false_iff in Hx' as [H1 H2].
  apply Nat.eqb_neq in H1. apply String.eqb_neq in H2. apply String.eqb_neq in H3.
  done.
Qed.

Lemma insert_user_code_taken u w x :
  In x (users w) -> family_code x = family_code u ->
  exists e, insert_user u w = inl e.
Proof.
  intros Hx Hcode. unfold insert_user.
  destruct (validate_user u); simpl; [|by eauto].
  assert (E : existsb (fun x => Nat.eqb (_id x) (_id u)
                        || String.eqb (username x) (username u)
                        || String.eqb (family_code x) (family_code u))
                (users w) = true).
  { apply existsb_exists. exists x. split; [done|].
    rewrite Hcode, String.eqb_refl. by rewrite orb_true_r. }
  rewrite E. by eauto.
Qed.

Lemma find_username_Some uname w :
  (exists u, In u (users w) /\ username u = uname) ->
  exists u, findOne_username uname w = Some u.
Proof.
  intros (u & Hu & Hn). unfold findOne_username.
  destruct (find _ (users w)) as [x|] eqn:E; [by eauto|].
  apply (find_none _ _ E) in Hu. rewrite Hn, String.eqb_refl in Hu. done.
Qed.

(** C9: registering a username that some stored user already has answers
    400 "Username already exists" and leaves the store, hence the list of
    users and its length, exactly as it was. *)
Theorem register_duplicate_username uname password w :
  (exists u, In u (users w) /\ username u = uname) ->
  register env uname password w =
    (w, Some (error 400 "Username already exists"))
  /\ users (register env uname password w).1 = users w
  /\ length (users (register env uname password w).1) = length (users w).
Proof.
  intros Hdup. destruct (find_username_Some _ _ Hdup) as [u Hu].
  unfold register. by rewrite Hu.
Qed.


(** What a login with string credentials answers. *)
Lemma login_outcomes uname password now w :
  (exists user,
      findOne_username uname w = Some user
      /\ bcrypt_compare env password (password_hash user) = true
      /\ login env (Some (VStr uname)) (Some (VStr password)) now w =
           (w, Some (json (BSession (jwt_sign env (_id user) now)
                                    (family_code user)))))
  \/ login env (Some (VStr uname)) (Some (VStr password)) now w =
       (w, Some (error 400 "Invalid credentials")).
Proof.
  unfold login, resolve_username.
  destruct (findOne_username uname w) as [user|]; [|by right].
  destruct (bcrypt_compare env password (password_hash user)) eqn:E;
    [left; by exists user|by right].
Qed.

(** C3, with the size of the alphabet put right: when [Math.random] keeps
    to the unit interval, the code returned by a successful registration has
    exactly 5 characters, each of them one of the 32 symbols of [chars],
    which are the uppercase letters and digits other than I, O, 0 and 1;
    and that code is the one stored with the new user. *)
Theorem register_code_shape uname password w w' code :
  (forall i, (0 <= Math_random env i)%Q /\ (Math_random env i < 1)%Q) ->
  register env uname password w = (w', Some (json (BUserCreated code))) ->
  String.length code = 5
  /\ (forall c, In c (list_ascii_of_string code) ->
                In c (list_ascii_of_string chars) /\ is_code_symbol c = true)
  /\ length (list_ascii_of_string chars) = 32
  /\ NoDup (list_ascii_of_string chars)
  /\ (exists u, In u (users w') /\ username u = uname /\ family_code u = code).
Proof.
  intros Hrand Hreg.
  destruct (findOne_username uname w) as [u|] eqn:Hfind.
  { unfold register in Hreg. rewrite Hfind in Hreg. discriminate Hreg. }
  rewrite (register_fresh _ _ _ Hfind) in Hreg.
  destruct (insert_user _ _) as [e|w3] eqn:Hins; [discriminate Hreg|].
  injection Hreg as <- <-.
  destruct (generateCode_shape w Hrand) as [Hlen Hin].
  destruct chars_alphabet as (Hsize & Hnodup & Hsym).
  split; [done|]. split.
  { intros c Hc. split; [by apply Hin|]. apply Hsym. by apply Hin. }
  split; [by rewrite <- string_length_list|]. split; [done|].
  apply insert_user_inr in Hins as (-> & _ & _).
  exists (mkUser (next_oid w) uname (bcrypt_hash env password)
            (generateCode env w).1 []).
  split; [|done]. simpl. apply in_or_app. right. by left.
Qed.


End Accounts.

(** ** Viewer membership *)

Section Viewers.

Variable env : Env.

Lemma set_users_same w : set_users (users w) w = w.
Proof. by destruct w. Qed.

Lemma update_viewers_ids id vs us :
  _id <$> update_viewers id vs us = _id <$> us.
Proof.
  induction us as [|u us IH]; simpl; [done|].
  destruct (Nat.eqb (_id u) id); csimpl; [done|]. by rewrite IH.
Qed.

Lemma update_viewers_Forall (P : list Viewer -> Prop) id vs us :
  P vs ->
  Forall (fun u => P (viewers u)) us ->
  Forall (fun u => P (viewers u)) (update_viewers id vs us).
Proof.
  intros Hvs. induction 1 as [|u us Hu Hus IH]; simpl; [done|].
  destruct (Nat.eqb (_id u) id); by constructor.
Qed.

(** With unique ids, saving the user found by code rewrites that very
    document, and the same code finds it again. *)
Lemma update_viewers_found code vs us u :
  NoDup (_id <$> us) ->
  find (fun x => String.eqb (family_code x) code) us = Some u ->
  find (fun x => String.eqb (family_code x) code) (update_viewers (_id u) vs us)
    = Some (mkUser (_id u) (username u) (password_hash u) (family_code u) vs).
Proof.
  induction us as [|x us IH]; simpl; [done|].
  intros Hnodup Hfind. apply NoDup_cons in Hnodup as [Hx Hnodup].
  destruct (String.eqb (family_code x) code) eqn:Hcode.
  - injection Hfind as <-. rewrite Nat.eqb_refl. simpl. by rewrite Hcode.
  - destruct (Nat.eqb_spec (_id x) (_id u)) as [Heq|Hne].
    + exfalso. apply Hx. rewrite Heq. apply list_elem_of_fmap.
      exists u. split; [done|]. apply list_elem_of_In.
      by apply find_some in Hfind as [Hin _].
    + simpl. rewrite Hcode. by apply IH.
Qed.

(** With unique ids, saving a user with the viewer list it already has
    changes nothing. *)
Lemma update_viewers_same us u :
  NoDup (_id <$> us) -> In u us ->
  update_viewers (_id u) (viewers u) us = us.
Proof.
  induction us as [|x us IH]; simpl; [done|].
  intros Hnodup Hin. apply NoDup_cons in Hnodup as [Hx Hnodup].
  destruct (Nat.eqb_spec (_id x) (_id u)) as [Heq|Hne].
  - destruct Hin as [->|Hin]; [by destruct u|].
    exfalso. apply Hx. rewrite Heq. apply list_elem_of_fmap.
    exists u. split; [done|]. by apply list_elem_of_In.
  - destruct Hin as [->|Hin]; [done|]. by rewrite IH.
Qed.

(** Users other than the saved one are left alone. *)
Lemma update_viewers_other id vs us u :
  In u us -> _id u <> id -> In u (update_viewers id vs us).
Proof.
  induction us as [|x us IH]; simpl; [done|].
  intros [->|Hin] Hne.
  - destruct (Nat.eqb_spec (_id u) id); [done|by left].
  - destruct (Nat.eqb (_id x) id); right; [done|by apply IH].
Qed.

Lemma find_name_None n vs :
  find (fun v => String.eqb (name v) n) vs = None <-> n ∉ (name <$> vs).
Proof.
  induction vs as [|v vs IH]; simpl.
  - split; [intros _; apply not_elem_of_nil|done].
  - rewrite not_elem_of_cons. destruct (String.eqb_spec (name v) n) as [->|Hne].
    + split; [done|]. by intros [? _].
    + rewrite IH. split; [by intros ?; split|by intros [_ ?]].
Qed.

Lemma filter_name_absent n vs :
  n ∉ (name <$> vs) -> filter (fun v => name v = n) vs = [].
Proof.
  induction vs as [|v vs IH]; simpl; [done|].
  rewrite not_elem_of_cons. intros [Hne Hn].
  rewrite filter_cons_False by done. by apply IH.
Qed.

Lemma filter_name_once n vs :
  NoDup (name <$> vs) -> n ∈ (name <$> vs) ->
  length (filter (fun v => name v = n) vs) = 1.
Proof.
  induction vs as [|v vs IH]; simpl.
  - intros _ H. by apply elem_of_nil in H.
  - intros Hnodup Hin. apply NoDup_cons in Hnodup as [Hv Hnodup].
    destruct (decide (name v = n)) as [Heq|Hne].
    + rewrite filter_cons_True by done. simpl.
      rewrite filter_name_absent; [done|]. by rewrite <- Heq.
    + rewrite filter_cons_False by done. apply IH; [done|].
      apply elem_of_cons in Hin as [Hin|Hin]; [by subst n|done].
Qed.

Lemma filter_other_names_all n (vs : list Viewer) :
  (forall v, v ∈ vs -> name v <> n) ->
  filter (fun v => name v <> n) vs = vs.
Proof.
  induction vs as [|v vs IH]; [done|]. intros H.
  rewrite filter_cons_True by (apply H; by left).
  rewrite IH; [done|]. intros x Hx. apply H. by right.
Qed.

Lemma filter_name_present n vs v :
  find (fun v => String.eqb (name v) n) vs = Some v ->
  1 <= length (filter (fun v => name v = n) vs).
Proof.
  induction vs as [|x vs IH]; simpl; [done|].
  destruct (String.eqb_spec (name x) n) as [Hx|Hx].
  - intros _. rewrite filter_cons_True by done. simpl. lia.
  - intros Hfind. rewrite filter_cons_False by done. by apply IH.
Qed.

(** On a string, [v.name !== n] keeps the viewers with another name. *)
Lemma filter_strict_ne n (vs : list Viewer) :
  filter (fun v => strict_eq (name v) (VStr n) = false) vs
    = filter (fun v => name v <> n) vs.
Proof.
  apply list_filter_iff. intros v. simpl.
  destruct (String.eqb_spec (name v) n); split; congruence.
Qed.

Lemma viewers_ok_snoc vs n t :
  viewers_ok vs -> n <> "" -> viewers_ok (vs ++ [mkViewer n t]).
Proof.
  intros Hempty Hn. unfold viewers_ok. rewrite fmap_app. simpl.
  rewrite elem_of_app, list_elem_of_singleton. intros [?|?]; [done|].
  by apply Hn.
Qed.

Lemma viewers_ok_filter (P : Viewer -> Prop) `{!forall v, Decision (P v)} vs :
  viewers_ok vs -> viewers_ok (filter P vs).
Proof.
  intros Hempty Hin. apply Hempty.
  eapply elem_of_sublist; [exact Hin|]. apply fmap_sublist, sublist_filter.
Qed.

Lemma store_ok_save_viewers w u vs :
  store_ok w -> viewers_ok vs -> store_ok (save_viewers u vs w).
Proof.
  intros [Hids Hvs] Hok. unfold store_ok, save_viewers. simpl.
  rewrite update_viewers_ids. split; [done|].
  by apply (update_viewers_Forall viewers_ok).
Qed.

Lemma findOne_family_code_In code w u :
  findOne_family_code code w = Some u -> In u (users w) /\ family_code u = code.
Proof.
  unfold findOne_family_code. intros H. apply find_some in H as [Hin H].
  by apply String.eqb_eq in H.
Qed.

(** Whatever the filter value, the user it resolves is a stored one. *)
Lemma resolve_code_In code w u :
  resolve_code env code w = inr (Some u) -> In u (users w).
Proof.
  assert (Hres : resolve env family_code code w = inr (Some u) -> In u (users w)).
  { unfold resolve. destruct (mongoose_query env code) as [e|test]; [done|].
    intros [= H]. by apply find_some in H as [Hin _]. }
  unfold resolve_code. destruct code as [[| | |c| | |]|]; try exact Hres.
  intros [= H]. by apply findOne_family_code_In in H as [Hin _].
Qed.

Lemma store_ok_viewers w u : store_ok w -> In u (users w) -> viewers_ok (viewers u).
Proof.
  intros [_ Hvs] Hin. rewrite Forall_forall in Hvs. apply Hvs.
  by apply list_elem_of_In.
Qed.

(** A truthy value never casts to the empty string. *)
Lemma castString_truthy v s :
  truthy_val (Some v) = true -> castString env v = Some s -> s <> "".
Proof.
  unfold castString. intros Ht.
  destruct v as [| | |n| | |]; try (destruct (cast_text env _) as [[c r]|];
    [by intros [= <-]|done]).
  intros [= <-]. simpl in Ht. apply negb_true_iff in Ht.
  by apply String.eqb_neq.
Qed.

(** The ways a join can end: the store is kept, or the resolved user is
    saved with one more viewer, whose name is not empty. *)
Lemma join_cases code nm now w :
  (join env code nm now w).1 = w
  \/ exists user n s,
       resolve_code env code w = inr (Some user)
       /\ nm = Some n /\ truthy_val nm = true
       /\ find (fun v => strict_eq (name v) n) (viewers user) = None
       /\ castString env n = Some s /\ s <> ""
       /\ join env code nm now w
          = (save_viewers user (viewers user ++ [mkViewer s now]) w,
             Some (json (BJoined code))).
Proof.
  unfold join. destruct (resolve_code env code w) as [e|[user|]]; [by left| |by left].
  destruct nm as [n|]; [|by left].
  destruct (truthy_val (Some n)) eqn:Ht; [|by left].
  destruct (find _ (viewers user)) eqn:Hfind; [by left|].
  destruct (castString env n) as [s|] eqn:Hcast; [|by left].
  right. exists user, n, s. repeat split; try done.
  by eapply castString_truthy.
Qed.

(** The ways a leave can end: the store is kept, or the resolved user is
    saved with the viewers that are not strictly equal to the name. *)
Lemma leave_cases code nm w :
  (leave env code nm w).1 = w
  \/ exists user n,
       resolve_code env code w = inr (Some user)
       /\ nm = Some n /\ truthy_val nm = true
       /\ leave env code nm w
          = (save_viewers user
               (filter (fun v => strict_eq (name v) n = false) (viewers user)) w,
             Some (json BLeft)).
Proof.
  unfold leave. destruct (resolve_code env code w) as [e|[user|]]; [by left| |by left].
  destruct nm as [n|]; [|by left].
  destruct (truthy_val (Some n)) eqn:Ht; [|by left].
  right. by exists user, n.
Qed.

Lemma join_store_ok code nm now w :
  store_ok w -> store_ok (join env code nm now w).1.
Proof.
  intros Hok.
  destruct (join_cases code nm now w)
    as [->|(user & n & s & Hres & _ & _ & _ & _ & Hs & ->)]; [done|].
  apply store_ok_save_viewers; [done|].
  apply viewers_ok_snoc; [|done].
  eapply store_ok_viewers; [done|]. by eapply resolve_code_In.
Qed.

Lemma leave_store_ok code nm w : store_ok w -> store_ok (leave env code nm w).1.
Proof.
  intros Hok.
  destruct (leave_cases code nm w) as [->|(user & n & Hres & _ & _ & ->)]; [done|].
  apply store_ok_save_viewers; [done|].
  apply viewers_ok_filter.
  eapply store_ok_viewers; [done|]. by eapply resolve_code_In.
Qed.

Lemma register_store_ok uname password w :
  store_ok w -> store_ok (register env uname password w).1.
Proof.
  intros [Hids Hvs]. unfold register.
  destruct (findOne_username uname w); [done|].
  pose proof (generateCode_calls env w) as (_ & Husers & _).
  destruct (generateCode env w) as [code w1]. simpl in Husers. 
  destruct (fresh_oid w1) as [id w2] eqn:Hfresh.
  assert (Hu2 : users w2 = users w) by (injection Hfresh as _ <-; done).
  destruct (insert_user _ w2) as [e|w3] eqn:Hins; simpl.
  - unfold store_ok. by rewrite Hu2.
  - apply insert_user_inr in Hins as (-> & _ & Hother).
    unfold store_ok. simpl. rewrite Hu2 in *. rewrite fmap_app. split.
    + apply NoDup_app. split; [done|]. split; [|apply NoDup_singleton].
      intros x Hx Hx'. apply list_elem_of_singleton in Hx'. subst x.
      apply list_elem_of_fmap in Hx as (u & Hid & Hu).
      apply list_elem_of_In in Hu. destruct (Hother u Hu) as (Hne & _).
      by apply Hne.
    + apply Forall_app. split; [done|]. apply Forall_singleton.
      apply not_elem_of_nil.
Qed.

Lemma authenticated_users authHeader now route w :
  (forall userId w0, users (route userId w0).1 = users w0) ->
  users (authenticated env authHeader now route w).1 = users w.
Proof.
  intros Hroute. unfold authenticated.
  destruct (authenticate env authHeader now); [done|apply Hroute].
Qed.

Lemma create_users k authHeader reqBody now w :
  users (create env k authHeader reqBody now w).1 = users w.
Proof.
  unfold create. apply authenticated_users. intros userId w0.
  destruct (new_doc env k (spread_owner reqBody userId) w0) as [[e|d] w1] eqn:Hnew;
    destruct (new_doc_frame _ _ _ _ _ _ Hnew) as [Hu _]; [done|].
  destruct (insert_doc k d w1) as [e|w2] eqn:Hins; [done|].
  apply insert_doc_inr in Hins. subst w2. simpl.
  by rewrite users_set_collection.
Qed.

Lemma login_store uname password now w : (login env uname password now w).1 = w.
Proof. unfold login. by repeat case_match. Qed.

Lemma delete_users k authHeader id now w :
  users (delete env k authHeader id now w).1 = users w.
Proof.
  unfold delete. apply authenticated_users. intros userId w0.
  destruct (castObjectId env id); [|done].
  unfold deleteOne. simpl. by rewrite users_set_collection.
Qed.

Lemma handle_store_ok now req w : store_ok w -> store_ok (handle env now req w).1.
Proof.
  intros Hok. destruct req; simpl.
  - done.
  - by apply register_store_ok.
  - by rewrite login_store.
  - by apply join_store_ok.
  - by apply leave_store_ok.
  - unfold get_viewers, authenticated. by repeat case_match.
  - unfold list_public. by case_match.
  - unfold list_owned, authenticated. by case_match.
  - destruct Hok as [Hids Hvs]. unfold store_ok.
    by rewrite create_users.
  - destruct Hok as [Hids Hvs]. unfold store_ok.
    by rewrite delete_users.
Qed.

(** Every store the server reaches is well formed. *)
Lemma reachable_store_ok w : reachable env w -> store_ok w.
Proof.
  induction 1 as [|now req w _ IH].
  - split; [apply NoDup_nil_2|apply Forall_nil_2].
  - by apply handle_store_ok.
Qed.

(** What [join] does for a non-empty string name, in a store with unique
    user ids, to a list that holds the name at most once. *)
Lemma join_named code n now w user :
  store_ok w ->
  findOne_family_code code w = Some user ->
  n <> "" ->
  length (filter (fun v => name v = n) (viewers user)) <= 1 ->
  exists user',
    (join env (Some (VStr code)) (Some (VStr n)) now w).2
      = Some (json (BJoined (Some (VStr code))))
    /\ findOne_family_code code
         (join env (Some (VStr code)) (Some (VStr n)) now w).1 = Some user'
    /\ _id user' = _id user
    /\ find (fun v => String.eqb (name v) n) (viewers user') <> None
    /\ length (filter (fun v => name v = n) (viewers user')) = 1
    /\ (find (fun v => String.eqb (name v) n) (viewers user) <> None ->
        (join env (Some (VStr code)) (Some (VStr n)) now w).1 = w).
Proof.
  intros Hok Hfind Hn Hcount. unfold join, resolve_code. rewrite Hfind.
  cbn [truthy_val castString].
  destruct (String.eqb_spec n "") as [?|_]; [done|]. cbn [negb].
  change (fun v => strict_eq (name v) (VStr n))
    with (fun v => String.eqb (name v) n).
  destruct (find _ (viewers user)) as [v|] eqn:Hname; cbn [fst snd].
  - exists user. rewrite Hfind, Hname. repeat split; [done|].
    pose proof (filter_name_present _ _ _ Hname). lia.
  - eexists. split; [done|]. split.
    { unfold findOne_family_code, save_viewers. simpl.
      apply update_viewers_found; [by destruct Hok|exact Hfind]. }
    simpl. split; [done|].
    assert (Hfilter : filter (fun v => name v = n) (viewers user ++ [mkViewer n now])
                      = [mkViewer n now]).
    { rewrite filter_app, filter_name_absent by by apply find_name_None.
      by rewrite filter_cons_True. }
    split; [|by rewrite Hfilter].
    intros Hnone. apply find_name_None in Hnone. apply Hnone.
    rewrite fmap_app. apply elem_of_app. right. by left.
Qed.

(** C6, for non-empty string names that the list holds at most once: in a
    store the server can reach, joining twice under a valid code with such
    a name answers 200 "Joined" both times, the second call changes
    nothing, and the owner's viewer list then holds exactly one entry with
    that name. *)
Theorem join_idempotent code n t1 t2 w user :
  reachable env w ->
  findOne_family_code code w = Some user ->
  n <> "" ->
  length (filter (fun v => name v = n) (viewers user)) <= 1 ->
  let o1 := join env (Some (VStr code)) (Some (VStr n)) t1 w in
  let o2 := join env (Some (VStr code)) (Some (VStr n)) t2 o1.1 in
  o1.2 = Some (json (BJoined (Some (VStr code))))
  /\ o2.2 = Some (json (BJoined (Some (VStr code))))
  /\ o2.1 = o1.1
  /\ exists user',
       findOne_family_code code o2.1 = Some user'
       /\ _id user' = _id user
       /\ length (filter (fun v => name v = n) (viewers user')) = 1.
Proof.
  intros Hreach Hfind Hn Hcount o1 o2.
  pose proof (reachable_store_ok _ Hreach) as Hok.
  destruct (join_named code n t1 w user Hok Hfind Hn Hcount)
    as (u1 & Hr1 & Hfind1 & Hid1 & Hin1 & Hlen1 & _).
  fold o1 in Hr1, Hfind1.
  assert (Hok1 : store_ok o1.1) by by apply join_store_ok.
  assert (Hcount1 : length (filter (fun v => name v = n) (viewers u1)) <= 1)
    by lia.
  destruct (join_named code n t2 o1.1 u1 Hok1 Hfind1 Hn Hcount1)
    as (u2 & Hr2 & Hfind2 & Hid2 & _ & Hlen2 & Hsame).
  fold o2 in Hr2, Hfind2, Hsame.
  split; [done|]. split; [done|]. split; [by apply Hsame|].
  exists u2. split; [done|]. split; [congruence|done].
Qed.

(** C8: in a store the server can reach, leaving under a valid code
    answers 200 "Left family".  Afterwards the owner's viewer list is the
    old one without the entries whose name is exactly the given one, the
    other entries staying in place, and every other user is untouched.
    When no entry has that name the whole store is unchanged. *)
Theorem leave_removes_name code n w user :
  reachable env w ->
  findOne_family_code code w = Some user ->
  let out := leave env (Some (VStr code)) (Some (VStr n)) w in
  out.2 = Some (json BLeft)
  /\ ((forall v, v ∈ viewers user -> name v <> n) -> out.1 = w)
  /\ (exists user',
        findOne_family_code code out.1 = Some user'
        /\ _id user' = _id user
        /\ viewers user' = filter (fun v => name v <> n) (viewers user)
        /\ forall v, v ∈ viewers user' <-> v ∈ viewers user /\ name v <> n)
  /\ (forall u, In u (users w) -> _id u <> _id user -> In u (users out.1)).
Proof.
  intros Hreach Hfind out. subst out.
  pose proof (reachable_store_ok _ Hreach) as Hok.
  destruct (findOne_family_code_In _ _ _ Hfind) as [Hin _].
  pose proof (store_ok_viewers _ _ Hok Hin) as Hempty.
  unfold leave, resolve_code. rewrite Hfind. cbn [truthy_val].
  rewrite filter_strict_ne.
  destruct (String.eqb_spec n "") as [->|Hn]; cbn [negb fst snd].
  - split; [done|].
    assert (Hall : forall v, v ∈ viewers user -> name v <> "").
    { intros v Hv E. apply Hempty. rewrite <- E. by apply list_elem_of_fmap_2. }
    split; [done|]. split; [|done].
    exists user. split; [done|]. split; [done|].
    rewrite (filter_other_names_all _ _ Hall). split; [done|].
    intros v. split; [intros Hv; split; [done|by apply Hall]|by intros [? _]].
  - split; [done|]. split; [|split].
    + intros Hall. unfold save_viewers.
      rewrite (filter_other_names_all _ _ Hall).
      rewrite update_viewers_same; [apply set_users_same|by destruct Hok|done].
    + eexists. split.
      { unfold findOne_family_code, save_viewers. simpl.
        apply update_viewers_found; [by destruct Hok|exact Hfind]. }
      simpl. split; [done|]. split; [done|].
      intros v. by rewrite list_elem_of_filter, (and_comm (name v <> n)).
    + intros u Hu Hne. unfold save_viewers. simpl.
      by apply update_viewers_other.
Qed.

End Viewers.

(** ** The properties on sample runs *)

Lemma sample_random_unit i :
  (0 <= Math_random sample_env i)%Q /\ (Math_random sample_env i < 1)%Q.
Proof.
  simpl. unfold sample_random. destruct (Nat.ltb i 10); [done|].
  pose proof (Nat.mod_upper_bound (i / 5 - 1) 32) as Hlt.
  unfold Qle, Qlt. simpl. lia.
Qed.

Lemma world_alice_reachable : reachable sample_env world_alice.
Proof. exact (reachable_step sample_env 0 _ init (reachable_init sample_env)). Qed.

Lemma world_alice_mom_reachable : reachable sample_env world_alice_mom.
Proof. exact (reachable_step sample_env 5 _ world_alice world_alice_reachable). Qed.

Lemma create_stamps_owner_witness :
  authenticate sample_env (Some ("Bearer " +:+ alice_token)) 9 = inr 0
  /\ forged_note !! "owner_id" = Some (VOid 7)
  /\ exists d,
       (create sample_env Note (Some ("Bearer " +:+ alice_token)) forged_note 9
          world_alice_mom).2 = Some (json (BRecord d))
       /\ owner_id d = 0.
Proof.
  assert (H : authenticate sample_env (Some ("Bearer " +:+ alice_token)) 9 = inr 0)
    by reflexivity.
  split; [exact H|]. split; [reflexivity|].
  destruct (create_stamps_owner sample_env Note _ forged_note 9 world_alice_mom 0 H)
    as (_ & _ & [(d & Hd & Ho & _)|[Hnone _]]).
  - exists d. by split.
  - vm_compute in Hnone. discriminate Hnone.
Defined.



(** C3, counterexample to the claim as stated: no alphabet of 33 different
    symbols is the set of uppercase letters and digits without I, O, 0 and
    1, nor the set of symbols [generateCode] draws from; both have 32. *)
Lemma access_code_alphabet_counterexample :
  ~ (exists alphabet : list ascii,
       NoDup alphabet /\ length alphabet = 33
       /\ ((forall c, In c alphabet <-> is_code_symbol c = true)
           \/ (forall c, In c alphabet <-> In c (list_ascii_of_string chars)))).
Proof.
  intros (alphabet & Hnodup & Hlen & Hmem).
  destruct chars_alphabet as (_ & Hnodup' & Hsym).
  assert (Hperm : alphabet ≡ₚ list_ascii_of_string chars).
  { apply NoDup_Permutation; [done..|]. intros c.
    rewrite !list_elem_of_In. destruct Hmem as [Hmem|Hmem]; [|done].
    by rewrite Hmem, Hsym. }
  apply Permutation_length in Hperm. rewrite Hlen in Hperm. discriminate Hperm.
Qed.

Lemma register_code_shape_witness :
  register sample_env "alice" "pw1" init
    = (world_alice, Some (json (BUserCreated "AAAAA")))
  /\ String.length "AAAAA" = 5
  /\ (forall c, In c (list_ascii_of_string "AAAAA") -> is_code_symbol c = true).
Proof.
  assert (H : register sample_env "alice" "pw1" init
              = (world_alice, Some (json (BUserCreated "AAAAA"))))
    by reflexivity.
  split; [exact H|].
  destruct (register_code_shape sample_env "alice" "pw1" init world_alice "AAAAA"
              sample_random_unit H) as (Hlen & Hsym & _).
  split; [exact Hlen|]. intros c Hc. exact (proj2 (Hsym c Hc)).
Defined.



(** C6, counterexample to the claim as stated: the empty string is a name
    the handler takes for no name at all; joining twice with it answers
    200 "Joined" twice and leaves no entry with that name.  And once two
    joins that carried the number 5 have stored the name "5" twice, joining
    twice with the string "5" answers 200 "Joined" twice and leaves both
    entries. *)
Lemma join_empty_name_counterexample :
  (let o1 := join sample_env (Some (VStr "AAAAA")) (Some (VStr "")) 1 world_alice in
   let o2 := join sample_env (Some (VStr "AAAAA")) (Some (VStr "")) 2 o1.1 in
   o1.2 = Some (json (BJoined (Some (VStr "AAAAA"))))
   /\ o2.2 = Some (json (BJoined (Some (VStr "AAAAA"))))
   /\ findOne_family_code "AAAAA" o2.1 = Some alice_user
   /\ length (filter (fun v => name v = "") (viewers alice_user)) = 0)
  /\ (let o1 := join sample_env (Some (VStr "AAAAA")) (Some (VStr "5")) 8
                  world_alice_fives in
      let o2 := join sample_env (Some (VStr "AAAAA")) (Some (VStr "5")) 9 o1.1 in
      findOne_family_code "AAAAA" world_alice_fives = Some alice_with_fives
      /\ o1.2 = Some (json (BJoined (Some (VStr "AAAAA"))))
      /\ o2.2 = Some (json (BJoined (Some (VStr "AAAAA"))))
      /\ findOne_family_code "AAAAA" o2.1 = Some alice_with_fives
      /\ length (filter (fun v => name v = "5") (viewers alice_with_fives)) = 2).
Proof. vm_compute. by repeat split. Qed.

Lemma join_idempotent_witness :
  (reachable sample_env world_alice
   /\ findOne_family_code "AAAAA" world_alice = Some alice_user
   /\ "Mom" <> ""
   /\ length (filter (fun v => name v = "Mom") (viewers alice_user)) <= 1)
  /\ (join sample_env (Some (VStr "AAAAA")) (Some (VStr "Mom")) 6
        (join sample_env (Some (VStr "AAAAA")) (Some (VStr "Mom")) 5
           world_alice).1).1
       = world_alice_mom
  /\ exists user',
       findOne_family_code "AAAAA" world_alice_mom = Some user'
       /\ length (filter (fun v => name v = "Mom") (viewers user')) = 1.
Proof.
  assert (H1 : findOne_family_code "AAAAA" world_alice = Some alice_user)
    by reflexivity.
  assert (H2 : "Mom" <> "") by discriminate.
  assert (H3 : length (filter (fun v => name v = "Mom") (viewers alice_user)) <= 1)
    by (simpl; lia).
  split; [split; [exact world_alice_reachable|by repeat split]|].
  destruct (join_idempotent sample_env "AAAAA" "Mom" 5 6 world_alice alice_user
              world_alice_reachable H1 H2 H3)
    as (_ & _ & Hsame & user' & Hf & _ & Hlen).
  split; [exact Hsame|].
  exists user'. split; [exact Hf|exact Hlen].
Defined.

(** C7, counterexample to the claim as stated: no note carries the route
    id [not-an-id], and yet alice's delete of it is answered 500 with the
    cast error's message, not with the acknowledgement. *)
Lemma delete_uncastable_id_counterexample :
  authenticate sample_env (Some "Bearer jwt.") 12 = inr 0
  /\ castObjectId sample_env "not-an-id" = None
  /\ delete sample_env Note (Some "Bearer jwt.") "not-an-id" 12 world_alice_note
     = (world_alice_note, Some (failure CastError))
  /\ (delete sample_env Note (Some "Bearer jwt.") "not-an-id" 12
        world_alice_note).2 <> Some (json BDeleted).
Proof. vm_compute. by repeat split. Qed.

Lemma delete_only_own_witness :
  (authenticate sample_env (Some "Bearer jwt.iii") 12 = inr 3
   /\ castObjectId sample_env note_route_id = Some 1
   /\ forall d, d ∈ collection Note world_alice_note ->
                doc_id d = 1 -> owner_id d <> 3)
  /\ delete sample_env Note (Some "Bearer jwt.iii") note_route_id 12
       world_alice_note
     = (world_alice_note, Some (json BDeleted)).
Proof.
  assert (H1 : authenticate sample_env (Some "Bearer jwt.iii") 12 = inr 3)
    by reflexivity.
  assert (H2 : castObjectId sample_env note_route_id = Some 1) by reflexivity.
  assert (H3 : forall d, d ∈ collection Note world_alice_note ->
                         doc_id d = 1 -> owner_id d <> 3).
  { intros d Hd _. apply list_elem_of_In in Hd.
    destruct Hd as [<-|[]]. discriminate. }
  split; [by repeat split|].
  exact (proj1 (delete_only_own sample_env Note _ note_route_id 12
                  world_alice_note 3 H1) 1 H2 H3).
Defined.

Lemma leave_removes_name_witness :
  (reachable sample_env world_alice_mom
   /\ findOne_family_code "AAAAA" world_alice_mom = Some alice_with_mom)
  /\ (leave sample_env (Some (VStr "AAAAA")) (Some (VStr "Dad"))
        world_alice_mom).1 = world_alice_mom
  /\ exists user',
       findOne_family_code "AAAAA"
         (leave sample_env (Some (VStr "AAAAA")) (Some (VStr "Mom"))
            world_alice_mom).1
         = Some user'
       /\ viewers user' = [].
Proof.
  assert (H : findOne_family_code "AAAAA" world_alice_mom = Some alice_with_mom)
    by reflexivity.
  assert (Hdad : forall v, v ∈ viewers alice_with_mom -> name v <> "Dad").
  { intros v Hv. apply list_elem_of_In in Hv.
    destruct Hv as [<-|[]]. discriminate. }
  split; [split; [exact world_alice_mom_reachable|exact H]|].
  split.
  - exact (proj1 (proj2 (leave_removes_name sample_env "AAAAA" "Dad"
                           world_alice_mom alice_with_mom
                           world_alice_mom_reachable H)) Hdad).
  - destruct (leave_removes_name sample_env "AAAAA" "Mom" world_alice_mom
                alice_with_mom world_alice_mom_reachable H)
      as (_ & _ & (user' & Hf & _ & Hvs & _) & _).
    exists user'. split; [exact Hf|exact Hvs].
Defined.

Lemma register_duplicate_username_witness :
  (exists u, In u (users world_alice) /\ username u = "alice")
  /\ register sample_env "alice" "pw9" world_alice
       = (world_alice, Some (error 400 "Username already exists")).
Proof.
  assert (H : exists u, In u (users world_alice) /\ username u = "alice")
    by (exists alice_user; split; [by left|reflexivity]).
  split; [exact H|].
  exact (proj1 (register_duplicate_username sample_env "alice" "pw9" world_alice H)).
Defined.

(** * Further properties of the routes *)

(** ** Records: listing, creating and deleting together *)

Section RecordRoutes.

Variable env : Env.

(** The middleware ends a request with one of two 401 responses only. *)
Lemma authenticate_inl authHeader now r :
  authenticate env authHeader now = inl r ->
  r = error 401 "Access denied" \/ r = error 401 "Invalid Token".
Proof.
  unfold authenticate. destruct authHeader as [h|]; [|intros [= <-]; by left].
  destruct (negb (truthy (Some h))); [intros [= <-]; by left|].
  destruct (verify env _ now); [done|intros [= <-]; by right].
Qed.

Lemma next_oid_set_collection k ds w :
  next_oid (set_collection k ds w) = next_oid w.
Proof. by destruct k. Qed.

Lemma new_doc_next_oid k obj w r w1 :
  new_doc env k obj w = (r, w1) -> next_oid w <= next_oid w1.
Proof.
  unfold new_doc.
  destruct (obj !! "_id") as [[| | | |i| |]|]; simpl;
    repeat case_match; intros [= _ <-]; simpl; lia.
Qed.

(** The ways a create request can end. *)
Lemma create_cases k authHeader reqBody now w :
  let out := create env k authHeader reqBody now w in
  (exists r, authenticate env authHeader now = inl r /\ out = (w, Some r))
  \/ (exists userId,
        authenticate env authHeader now = inr userId
        /\ users out.1 = users w
        /\ next_oid w <= next_oid out.1
        /\ (forall k', k' <> k -> collection k' out.1 = collection k' w)
        /\ ((exists d, out.2 = Some (json (BRecord d))
                       /\ owner_id d = userId
                       /\ collection k out.1 = collection k w ++ [d]
                       /\ existsb (fun x => Nat.eqb (doc_id x) (doc_id d))
                                  (collection k w) = false)
            \/ (out.2 = None /\ collection k out.1 = collection k w))).
Proof.
  intros out. subst out. unfold create, authenticated.
  destruct (authenticate env authHeader now) as [r|userId] eqn:Hauth.
  { left. by exists r. }
  right. exists userId. split; [done|].
  destruct (new_doc env k (spread_owner reqBody userId) w) as [[e|d] w1] eqn:Hnew;
    destruct (new_doc_frame _ _ _ _ _ _ Hnew) as [Hu Hc];
    pose proof (new_doc_next_oid _ _ _ _ _ Hnew) as Hn.
  { simpl. split; [done|]. split; [done|]. split; [by intros k' _|].
    right. by split. }
  pose proof (new_doc_owner _ _ _ _ _ _ _ (spread_owner_lookup reqBody userId) Hnew)
    as Ho.
  unfold insert_doc. rewrite Hc.
  destruct (existsb _ (collection k w)) eqn:Hfree; simpl.
  { split; [done|]. split; [done|]. split; [by intros k' _|]. right. by split. }
  rewrite users_set_collection, next_oid_set_collection.
  split; [done|]. split; [done|]. split.
  { intros k' Hk. by rewrite collection_set_collection, decide_False. }
  left. exists d. rewrite collection_set_collection, decide_True by done.
  done.
Qed.

(** The ways a delete request can end. *)
Lemma delete_cases k authHeader id now w :
  let out := delete env k authHeader id now w in
  (exists r, (authenticate env authHeader now = inl r
              \/ (castObjectId env id = None /\ r = failure CastError))
             /\ out = (w, Some r))
  \/ (exists userId oid,
        authenticate env authHeader now = inr userId
        /\ castObjectId env id = Some oid
        /\ out = (set_collection k (remove_first oid userId (collection k w)) w,
                  Some (json BDeleted))).
Proof.
  intros out. subst out. unfold delete, authenticated, deleteOne.
  destruct (authenticate env authHeader now) as [r|userId]; [left; by eauto|].
  destruct (castObjectId env id) as [oid|] eqn:Hcast.
  - right. by exists userId, oid.
  - left. exists (failure CastError). split; [by right|done].
Qed.

(** X1: an owner's listing answers with the records of the requested kind
    whose [owner_id] is the session's id, all of them, only them and in
    collection order; a request that fails authentication gets the
    middleware's 401 and no record.  The store is never changed. *)
Theorem list_owned_scoped k authHeader now w :
  (list_owned env k authHeader now w).1 = w
  /\ match authenticate env authHeader now with
     | inl r =>
         (list_owned env k authHeader now w).2 = Some r /\ status r = 401
     | inr userId =>
         exists ds,
           (list_owned env k authHeader now w).2 = Some (json (BRecords ds))
           /\ ds = filter (fun d => owner_id d = userId) (collection k w)
           /\ forall d, d ∈ ds <-> d ∈ collection k w /\ owner_id d = userId
     end.
Proof.
  unfold list_owned, authenticated.
  destruct (authenticate env authHeader now) as [r|userId] eqn:Hauth; simpl.
  - split; [done|]. split; [done|].
    by destruct (authenticate_inl _ _ _ Hauth) as [-> | ->].
  - split; [done|]. eexists. split; [done|]. split; [done|].
    intros d. unfold find_owner. rewrite list_elem_of_filter. tauto.
Qed.

Lemma elem_of_removed {A} (l1 l2 : list A) x d :
  d ∈ l1 ++ x :: l2 -> d ∉ l1 ++ l2 -> d = x.
Proof.
  rewrite !elem_of_app, elem_of_cons. intros [?|[?|?]] Hn; [|done|];
    exfalso; apply Hn; tauto.
Qed.

Lemma register_collections uname password w k :
  collection k (register env uname password w).1 = collection k w.
Proof.
  unfold register. destruct (findOne_username uname w); [done|].
  pose proof (generateCode_calls env w) as (_ & _ & Hc).
  destruct (generateCode env w) as [code w1]. simpl in Hc.
  destruct (fresh_oid w1) as [id w2] eqn:Hfresh.
  assert (Hc2 : collection k w2 = collection k w1)
    by (injection Hfresh as _ <-; by destruct k).
  destruct (insert_user _ w2) as [e|w3] eqn:Hins; simpl.
  - by rewrite Hc2, Hc.
  - apply insert_user_inr in Hins as (-> & _). rewrite <- Hc, <- Hc2. by destruct k.
Qed.

Lemma join_collections code nm now w k :
  collection k (join env code nm now w).1 = collection k w.
Proof.
  destruct (join_cases env code nm now w)
    as [->|(user & n & s & _ & _ & _ & _ & _ & _ & ->)]; [done|by destruct k].
Qed.

Lemma leave_collections code nm w k :
  collection k (leave env code nm w).1 = collection k w.
Proof.
  destruct (leave_cases env code nm w) as [->|(user & n & _ & _ & _ & ->)];
    [done|by destruct k].
Qed.

(** X2: tenant isolation of the whole server.  Whatever the request, a
    record leaves a collection only through a delete in that collection of
    a route id that casts to that record's id, under a session of the
    record's owner, and a record enters a collection only through a create
    for that collection under a session of the new record's owner. *)
Theorem records_change_only_by_owner now req w k d :
  (d ∈ collection k w -> d ∉ collection k (handle env now req w).1 ->
   exists authHeader id,
     req = Delete k authHeader id
     /\ castObjectId env id = Some (doc_id d)
     /\ authenticate env authHeader now = inr (owner_id d))
  /\ (d ∈ collection k (handle env now req w).1 -> d ∉ collection k w ->
      exists authHeader reqBody,
        req = Create k authHeader reqBody
        /\ authenticate env authHeader now = inr (owner_id d)).
Proof.
  assert (Hsame : collection k (handle env now req w).1 = collection k w ->
    (d ∈ collection k w -> d ∉ collection k (handle env now req w).1 ->
     exists authHeader id,
       req = Delete k authHeader id
       /\ castObjectId env id = Some (doc_id d)
       /\ authenticate env authHeader now = inr (owner_id d))
    /\ (d ∈ collection k (handle env now req w).1 -> d ∉ collection k w ->
        exists authHeader reqBody,
          req = Create k authHeader reqBody
          /\ authenticate env authHeader now = inr (owner_id d))).
  { intros ->. by split. }
  destruct req as [|u p|u p|c n|c n|h|k0 c|k0 h|k0 h b|k0 h i];
    try (apply Hsame; simpl;
         first [ done
               | apply register_collections
               | apply join_collections
               | apply leave_collections
               | by rewrite login_store
               | unfold get_viewers, authenticated; by repeat case_match
               | unfold list_public; by case_match
               | unfold list_owned, authenticated; by case_match ]).
  - (* create *)
    simpl in *.
    destruct (create_cases k0 h b now w)
      as [(r & _ & Hout)|(userId & Hauth & _ & _ & Hother & Hk)].
    { apply Hsame. simpl. by rewrite Hout. }
    destruct (decide (k = k0)) as [->|Hne]; [|by apply Hsame, Hother].
    destruct Hk as [(d0 & _ & Ho & Hcoll & _)|[_ Hcoll]]; [|by apply Hsame].
    rewrite Hcoll. split.
    + intros Hd Hnot. exfalso. apply Hnot. apply elem_of_app. by left.
    + intros Hd Hnot. apply elem_of_app in Hd as [Hd|Hd]; [done|].
      apply list_elem_of_singleton in Hd. subst d0.
      exists h, b. by rewrite Ho.
  - (* delete *)
    simpl in *.
    destruct (delete_cases k0 h i now w)
      as [(r & _ & Hout)|(userId & oid & Hauth & Hcast & Hout)].
    { apply Hsame. simpl. by rewrite Hout. }
    rewrite Hout. simpl. rewrite collection_set_collection.
    destruct (decide (k = k0)) as [->|Hne]; [|by split].
    destruct (remove_first_spec oid userId (collection k0 w))
      as [->|(l1 & x & l2 & Hw & -> & Hid & Ho)]; [by split|].
    rewrite Hw. split.
    + intros Hd Hnot. rewrite (elem_of_removed _ _ _ _ Hd Hnot).
      exists h, i. by rewrite Hid, Ho.
    + intros Hd Hnot. exfalso. apply Hnot.
      apply elem_of_app in Hd as [Hd|Hd]; apply elem_of_app; [by left|].
      right. by right.
Qed.

Lemma findOne_family_code_users code w w' :
  users w' = users w -> findOne_family_code code w' = findOne_family_code code w.
Proof. unfold findOne_family_code. by intros ->. Qed.

(** X3: once a create has answered with record [d], the owner's listing of
    that kind is the former listing followed by [d], the listings of every
    other owner and of the other kinds are what they were, and a public
    listing under the owner's access code shows [d] as well. *)
Theorem create_then_list k authHeader reqBody now w d :
  (create env k authHeader reqBody now w).2 = Some (json (BRecord d)) ->
  let w' := (create env k authHeader reqBody now w).1 in
  authenticate env authHeader now = inr (owner_id d)
  /\ find_owner k (owner_id d) w' = find_owner k (owner_id d) w ++ [d]
  /\ (forall o, o <> owner_id d -> find_owner k o w' = find_owner k o w)
  /\ (forall k' o, k' <> k -> find_owner k' o w' = find_owner k' o w)
  /\ (forall code user,
        findOne_family_code code w = Some user ->
        _id user = owner_id d ->
        (list_public k code w').2 =
          Some (json (BRecords (find_owner k (_id user) w ++ [d])))).
Proof.
  intros Hres w'. subst w'.
  destruct (create_cases k authHeader reqBody now w)
    as [(r & Hauth & Hout)|(userId & Hauth & Hu & _ & Hother & Hk)].
  { rewrite Hout in Hres. simpl in Hres. injection Hres as ->.
    by destruct (authenticate_inl _ _ _ Hauth). }
  destruct Hk as [(d0 & Hd0 & Ho & Hcoll & _)|[Hnone _]]; [|congruence].
  assert (d0 = d) by (unfold json in *; congruence). subst d0. subst userId.
  assert (Hown : find_owner k (owner_id d) (create env k authHeader reqBody now w).1
                 = find_owner k (owner_id d) w ++ [d]).
  { unfold find_owner. rewrite Hcoll, filter_app. f_equal.
    by rewrite filter_cons_True. }
  split; [done|]. split; [done|]. split; [|split].
  - intros o Ho. unfold find_owner. rewrite Hcoll, filter_app.
    rewrite filter_cons_False by done. by rewrite filter_nil, app_nil_r.
  - intros k' o Hk'. unfold find_owner. by rewrite Hother.
  - intros code user Hfind Hid. unfold list_public.
    rewrite (findOne_family_code_users _ _ _ Hu), Hfind. simpl.
    by rewrite Hid, Hown.
Qed.

Lemma remove_first_last id owner ds d :
  doc_id d = id -> owner_id d = owner ->
  existsb (fun x => Nat.eqb (doc_id x) id) ds = false ->
  remove_first id owner (ds ++ [d]) = ds.
Proof.
  intros Hid Ho. induction ds as [|x ds IH]; simpl.
  - intros _. by rewrite Hid, Ho, !Nat.eqb_refl.
  - intros Hfree. apply orb_false_iff in Hfree as [Hx Hfree].
    rewrite Hx. simpl. by rewrite IH.
Qed.

(** X4: deleting a record that a create has just answered with, by a
    route id that casts to the record's id and under a session of its
    owner, gives back the collection as it was before the create. *)
Theorem delete_undoes_create k authHeader reqBody now w d authHeader' id now' :
  (create env k authHeader reqBody now w).2 = Some (json (BRecord d)) ->
  castObjectId env id = Some (doc_id d) ->
  authenticate env authHeader' now' = inr (owner_id d) ->
  let w' := (create env k authHeader reqBody now w).1 in
  (delete env k authHeader' id now' w').2 = Some (json BDeleted)
  /\ collection k (delete env k authHeader' id now' w').1 = collection k w
  /\ users (delete env k authHeader' id now' w').1 = users w.
Proof.
  intros Hres Hcast Hauth' w'. subst w'.
  destruct (create_cases k authHeader reqBody now w)
    as [(r & Hauth & Hout)|(userId & Hauth & Hu & _ & Hother & Hk)].
  { rewrite Hout in Hres. simpl in Hres. injection Hres as ->.
    by destruct (authenticate_inl _ _ _ Hauth). }
  destruct Hk as [(d0 & Hd0 & Ho & Hcoll & Hfree)|[Hnone _]]; [|congruence].
  assert (d0 = d) by (unfold json in *; congruence). subst d0.
  unfold delete, authenticated, deleteOne. rewrite Hauth', Hcast. simpl.
  rewrite collection_set_collection, decide_True by done.
  rewrite users_set_collection, Hcoll.
  by rewrite remove_first_last.
Qed.

Lemma remove_first_sublist id owner ds : remove_first id owner ds `sublist_of` ds.
Proof.
  induction ds as [|x ds IH]; simpl; [done|].
  destruct (_ && _); [by apply sublist_cons|by apply sublist_skip].
Qed.

Lemma filter_all {A} (P : A -> Prop) `{!forall x, Decision (P x)} (l : list A) :
  (forall x, x ∈ l -> P x) -> filter P l = l.
Proof.
  induction l as [|x l IH]; [done|]. intros Hall.
  rewrite filter_cons_True by (apply Hall; by left).
  rewrite IH; [done|]. intros y Hy. apply Hall. by right.
Qed.

(** In a list where [f] takes each value once, [f] tells elements apart. *)
Lemma NoDup_fmap_inj_elem {A B} (f : A -> B) (l : list A) x y :
  NoDup (f <$> l) -> x ∈ l -> y ∈ l -> f x = f y -> x = y.
Proof.
  induction l as [|z l IH]; csimpl; [by intros _ ?%elem_of_nil|].
  intros [Hz Hnodup]%NoDup_cons Hx Hy Hf.
  apply elem_of_cons in Hx as [->|Hx]; apply elem_of_cons in Hy as [->|Hy].
  - done.
  - exfalso. apply Hz. rewrite Hf. by apply list_elem_of_fmap_2.
  - exfalso. apply Hz. rewrite <- Hf. by apply list_elem_of_fmap_2.
  - by apply IH.
Qed.

Lemma remove_first_absent id owner ds :
  id ∉ (doc_id <$> ds) -> remove_first id owner ds = ds.
Proof.
  intros Hid. apply remove_first_none. intros d Hd Hd'. exfalso.
  apply Hid. rewrite <- Hd'. by apply list_elem_of_fmap_2.
Qed.

(** With unique ids, removing the record with a given id and owner leaves
    the records with other ids. *)
Lemma remove_first_filter id owner ds d :
  NoDup (doc_id <$> ds) -> d ∈ ds -> doc_id d = id -> owner_id d = owner ->
  remove_first id owner ds = filter (fun x => doc_id x <> id) ds.
Proof.
  intros Hnodup Hd Hid Ho. induction ds as [|x ds IH]; [done|].
  csimpl in Hnodup. apply NoDup_cons in Hnodup as [Hx Hnodup]. simpl.
  destruct (Nat.eqb_spec (doc_id x) id) as [Hxid|Hxid]; simpl.
  - assert (x = d).
    { apply elem_of_cons in Hd as [->|Hd]; [done|]. exfalso. apply Hx.
      rewrite Hxid, <- Hid. by apply list_elem_of_fmap_2. }
    subst x. rewrite Ho, Nat.eqb_refl.
    rewrite filter_cons_False by (intros H; by apply H).
    symmetry. apply filter_all. intros y Hy Hyid. apply Hx.
    rewrite Hid, <- Hyid. by apply list_elem_of_fmap_2.
  - rewrite filter_cons_True by done. f_equal. apply IH; [done|].
    apply elem_of_cons in Hd as [->|Hd]; [done|done].
Qed.

Lemma records_ok_same w w' :
  (forall k, collection k w' = collection k w) -> records_ok w -> records_ok w'.
Proof. intros Hc Hok k. rewrite Hc. apply Hok. Qed.

Lemma handle_records_ok now req w :
  records_ok w -> records_ok (handle env now req w).1.
Proof.
  intros Hok.
  destruct req as [|u p|u p|c n|c n|h|k0 c|k0 h|k0 h b|k0 h i];
    try (apply (records_ok_same w); [intros k; simpl|done];
         first [ done
               | apply register_collections
               | apply join_collections
               | apply leave_collections
               | by rewrite login_store
               | unfold get_viewers, authenticated; by repeat case_match
               | unfold list_public; by case_match
               | unfold list_owned, authenticated; by case_match ]).
  - simpl. intros k.
    destruct (create_cases k0 h b now w)
      as [(r & _ & ->)|(userId & _ & _ & _ & Hother & Hk)]; [apply Hok|].
    destruct (decide (k = k0)) as [->|Hne]; [|rewrite Hother by done; apply Hok].
    destruct Hk as [(d0 & _ & _ & -> & Hfree)|[_ ->]]; [|apply Hok].
    rewrite fmap_app. apply NoDup_app. split; [apply Hok|].
    split; [|apply NoDup_singleton].
    intros x Hx Hx'. apply list_elem_of_singleton in Hx'. subst x.
    apply list_elem_of_fmap in Hx as (y & Hy & Hin).
    apply not_true_iff_false in Hfree. apply Hfree.
    apply existsb_exists. exists y. split; [by apply list_elem_of_In|].
    apply Nat.eqb_eq. done.
  - simpl. intros k.
    destruct (delete_cases k0 h i now w)
      as [(r & _ & ->)|(userId & oid & _ & _ & ->)]; [apply Hok|].
    simpl. rewrite collection_set_collection.
    destruct (decide (k = k0)) as [->|Hne]; [|apply Hok].
    eapply sublist_NoDup; [apply Hok|].
    apply fmap_sublist, remove_first_sublist.
Qed.

Lemma reachable_records_ok w : reachable env w -> records_ok w.
Proof.
  induction 1 as [|now req w _ IH].
  - intros []; apply NoDup_nil_2.
  - by apply handle_records_ok.
Qed.

(** X5: in a store the server can reach, an owner's delete of one of their
    records, by a route id that casts to the record's id, removes that
    record and nothing else: the collection keeps, in order, exactly the
    records with another id.  A further delete of that id, under any
    header, changes nothing. *)
Theorem delete_removes_record k authHeader id now w d :
  reachable env w ->
  castObjectId env id = Some (doc_id d) ->
  authenticate env authHeader now = inr (owner_id d) ->
  d ∈ collection k w ->
  let w' := (delete env k authHeader id now w).1 in
  collection k w' = filter (fun x => doc_id x <> doc_id d) (collection k w)
  /\ (d ∉ collection k w')
  /\ (forall x, x ∈ collection k w -> x <> d -> x ∈ collection k w')
  /\ (forall authHeader' id' now',
        castObjectId env id' = Some (doc_id d) ->
        (delete env k authHeader' id' now' w').1 = w').
Proof.
  intros Hreach Hcast Hauth Hd w'.
  pose proof (reachable_records_ok _ Hreach k) as Hnodup.
  assert (Hcoll : collection k w'
                  = filter (fun x => doc_id x <> doc_id d) (collection k w)).
  { subst w'. unfold delete, authenticated, deleteOne. rewrite Hauth, Hcast.
    simpl. rewrite collection_set_collection, decide_True by done.
    by apply (remove_first_filter _ _ _ d). }
  split; [done|]. split; [|split].
  - rewrite Hcoll, list_elem_of_filter. by intros [H _].
  - intros x Hx Hne. rewrite Hcoll, list_elem_of_filter. split; [|done].
    intros Hid. apply Hne.
    eapply (NoDup_fmap_inj_elem doc_id); eauto.
  - intros authHeader' id' now' Hcast'.
    destruct (delete_cases k authHeader' id' now' w')
      as [(r & _ & ->)|(userId & oid & _ & Hoid & ->)]; [done|].
    assert (oid = doc_id d) by congruence. subst oid.
    simpl. rewrite remove_first_absent; [apply set_collection_same|].
    rewrite Hcoll. intros Hin. apply list_elem_of_fmap in Hin as (x & Hid & Hx).
    apply list_elem_of_filter in Hx as [Hne _]. by apply Hne.
Qed.

End RecordRoutes.

(** ** Accounts: registration, login and what stays fixed *)

Section AccountRoutes.

Variable env : Env.

Lemma update_viewers_fmap {B} (f : User -> B) id vs us :
  (forall u vs', f (mkUser (_id u) (username u) (password_hash u)
                           (family_code u) vs') = f u) ->
  f <$> update_viewers id vs us = f <$> us.
Proof.
  intros Hf. induction us as [|u us IH]; simpl; [done|].
  destruct (Nat.eqb (_id u) id); csimpl; [by rewrite Hf|by rewrite IH].
Qed.

Lemma generateCode_next_oid w : next_oid (generateCode env w).2 = next_oid w.
Proof.
  unfold generateCode.
  by destruct (generateCode_loop env 5 (rand_calls w) "") as [result calls].
Qed.

(** The ways a registration can end. *)
Lemma register_cases uname password w :
  let out := register env uname password w in
  let code := (generateCode env w).1 in
  let newUser := mkUser (next_oid w) uname (bcrypt_hash env password) code [] in
  (exists u, findOne_username uname w = Some u
             /\ out = (w, Some (error 400 "Username already exists")))
  \/ (findOne_username uname w = None
      /\ next_oid out.1 = S (next_oid w)
      /\ ((exists e, out.2 = Some (failure e) /\ users out.1 = users w
                     /\ insert_user newUser (fresh_oid (generateCode env w).2).2
                        = inl e)
          \/ (out.2 = Some (json (BUserCreated code))
              /\ users out.1 = users w ++ [newUser]
              /\ validate_user newUser = true
              /\ forall x, In x (users w) ->
                   _id x <> next_oid w /\ username x <> uname
                   /\ family_code x <> code))).
Proof.
  intros out code newUser. subst out.
  destruct (findOne_username uname w) as [u|] eqn:Hfind.
  { left. exists u. split; [done|]. unfold register. by rewrite Hfind. }
  right. split; [done|]. rewrite (register_fresh _ _ _ _ Hfind).
  fold code. fold newUser.
  destruct (generateCode_calls env w) as (_ & Husers & _).
  pose proof (generateCode_next_oid w) as Hnext.
  set (w2 := (fresh_oid (generateCode env w).2).2).
  assert (Hu2 : users w2 = users w) by exact Husers.
  assert (Hn2 : next_oid w2 = S (next_oid w)) by exact (f_equal S Hnext).
  destruct (insert_user newUser w2) as [e|w3] eqn:Hins; cbn [fst snd].
  - split; [exact Hn2|]. left. by exists e.
  - apply insert_user_inr in Hins as (-> & Hvalid & Hother).
    split; [exact Hn2|]. right. rewrite Hu2 in Hother.
    split; [done|]. split; [|by split].
    change (users w2 ++ [newUser] = users w ++ [newUser]). by rewrite Hu2.
Qed.

Lemma save_viewers_next_oid u vs w : next_oid (save_viewers u vs w) = next_oid w.
Proof. done. Qed.

(** Every route but registration keeps the accounts and never lowers the
    id counter. *)
Lemma handle_accounts now req w :
  (forall u p, req <> Register u p) ->
  account <$> users (handle env now req w).1 = account <$> users w
  /\ next_oid w <= next_oid (handle env now req w).1.
Proof.
  intros Hreq.
  destruct req as [|u p|u p|c n|c n|h|k0 c|k0 h|k0 h b|k0 h i]; simpl.
  - done.
  - by destruct (Hreq u p).
  - by rewrite login_store.
  - destruct (join_cases env c n now w)
      as [->|(user & m & s & _ & _ & _ & _ & _ & _ & ->)]; [done|].
    unfold save_viewers. simpl. by rewrite update_viewers_fmap.
  - destruct (leave_cases env c n w) as [->|(user & m & _ & _ & _ & ->)]; [done|].
    unfold save_viewers. simpl. by rewrite update_viewers_fmap.
  - unfold get_viewers, authenticated. by repeat case_match.
  - unfold list_public. by case_match.
  - unfold list_owned, authenticated. by case_match.
  - destruct (create_cases env k0 h b now w)
      as [(r & _ & ->)|(userId & _ & -> & Hn & _)]; done.
  - destruct (delete_cases env k0 h i now w)
      as [(r & _ & ->)|(userId & oid & _ & _ & ->)]; [done|].
    simpl. by rewrite users_set_collection, next_oid_set_collection.
Qed.

Lemma accounts_ok_fmap w w' :
  account <$> users w' = account <$> users w ->
  next_oid w <= next_oid w' ->
  accounts_ok w -> accounts_ok w'.
Proof.
  intros Hacc Hnext (Hid & Hname & Hcode & Hall).
  assert (Hproj : forall {B} (f : ObjectId * string * string * string -> B)
                    (g : User -> B),
            (forall u, g u = f (account u)) ->
            g <$> users w' = g <$> users w).
  { intros B f g Hg.
    rewrite !(list_fmap_ext g (f ∘ account)) by (intros; apply Hg).
    by rewrite !list_fmap_compose, Hacc. }
  unfold accounts_ok.
  rewrite (Hproj _ (fun a => a.1.1.1) _id) by done.
  rewrite (Hproj _ (fun a => a.1.1.2) username) by done.
  rewrite (Hproj _ (fun a => a.2) family_code) by done.
  split; [done|]. split; [done|]. split; [done|].
  apply Forall_forall. intros u' Hu'.
  assert (Hin : account u' ∈ account <$> users w)
    by (rewrite <- Hacc; by apply list_elem_of_fmap_2).
  apply list_elem_of_fmap in Hin as (u & Hau & Hu).
  rewrite Forall_forall in Hall. destruct (Hall u Hu) as [Hv Hlt].
  unfold account in Hau. injection Hau as Hi Hn Hp Hc.
  unfold validate_user in *. rewrite Hi, Hn, Hp, Hc. split; [done|lia].
Qed.

Lemma handle_accounts_ok now req w :
  accounts_ok w -> accounts_ok (handle env now req w).1.
Proof.
  intros Hok.
  assert (Hcase : (exists u p, req = Register u p)
                  \/ (forall u p, req <> Register u p))
    by (destruct req; first [left; by eauto|by right]).
  destruct Hcase as [(u & p & ->)|Hreq].
  - simpl. destruct (register_cases u p w)
      as [(x & _ & ->)|(Hfresh & Hnext & [(e & _ & Hu & _)|(_ & Hu & Hvalid & Hother)])];
      [done| |].
    + apply (accounts_ok_fmap w); [by rewrite Hu|lia|done].
    + destruct Hok as (Hid & Hname & Hcode & Hall).
      unfold accounts_ok. rewrite Hu, !fmap_app, Hnext. csimpl.
      assert (Hnew : forall {B} (f : User -> B) b,
                (forall x, In x (users w) -> f x <> b) ->
                NoDup (f <$> users w) -> NoDup ((f <$> users w) ++ [b])).
      { intros B f b Hne Hnd. apply NoDup_app. split; [done|].
        split; [|apply NoDup_singleton].
        intros y Hy Hy'. apply list_elem_of_singleton in Hy'. subst y.
        apply list_elem_of_fmap in Hy as (x & Hx & Hin).
        apply list_elem_of_In in Hin. by apply (Hne x Hin). }
      split; [apply Hnew; [intros x Hx; by apply Hother|done]|].
      split; [apply Hnew; [intros x Hx; by apply Hother|done]|].
      split; [apply Hnew; [intros x Hx; by apply Hother|done]|].
      apply Forall_app. split.
      * eapply Forall_impl; [exact Hall|]. intros x [Hv Hlt]. split; [done|lia].
      * apply Forall_singleton. split; [done|simpl; lia].
  - destruct (handle_accounts now req w Hreq) as [Hacc Hnext].
    by apply (accounts_ok_fmap w).
Qed.

Lemma reachable_accounts_ok w : reachable env w -> accounts_ok w.
Proof.
  induction 1 as [|now req w _ IH].
  - unfold accounts_ok, init. simpl.
    repeat split; [apply NoDup_nil_2..|apply Forall_nil_2].
  - by apply handle_accounts_ok.
Qed.

Lemma find_app_last {A} (P : A -> bool) (l : list A) x :
  find P l = None -> P x = true -> find P (l ++ [x]) = Some x.
Proof.
  intros Hnone Hx. induction l as [|y l IH]; simpl in *; [by rewrite Hx|].
  destruct (P y); [done|]. by apply IH.
Qed.

Lemma find_none_intro {A} (P : A -> bool) (l : list A) :
  (forall x, In x l -> P x = false) -> find P l = None.
Proof.
  intros H. induction l as [|y l IH]; simpl; [done|].
  rewrite (H y) by by left. apply IH. intros x Hx. apply H. by right.
Qed.

(** What a successful registration has done. *)
Lemma register_created uname password w w' code :
  register env uname password w = (w', Some (json (BUserCreated code))) ->
  let newUser := mkUser (next_oid w) uname (bcrypt_hash env password) code [] in
  code = (generateCode env w).1
  /\ users w' = users w ++ [newUser]
  /\ findOne_username uname w = None
  /\ findOne_family_code code w = None
  /\ findOne_username uname w' = Some newUser
  /\ findOne_family_code code w' = Some newUser.
Proof.
  intros Hreg newUser.
  destruct (register_cases uname password w)
    as [(x & _ & Hout)|(Hfresh & _ & [(e & He & _)|(Hres & Hu & _ & Hother)])].
  - rewrite Hout in Hreg. discriminate Hreg.
  - rewrite Hreg in He. discriminate He.
  - rewrite Hreg in Hres, Hu. cbn [fst snd] in Hres, Hu.
    assert (Hcode : code = (generateCode env w).1)
      by (unfold json in Hres; congruence).
    rewrite <- Hcode in Hu, Hother. fold newUser in Hu.
    assert (Hnone : findOne_family_code code w = None).
    { apply find_none_intro. intros x Hx. apply String.eqb_neq.
      by apply Hother. }
    split; [done|]. split; [done|]. split; [done|]. split; [done|].
    unfold findOne_username, findOne_family_code. rewrite Hu. split.
    + apply find_app_last; [done|]. apply String.eqb_refl.
    + apply find_app_last; [done|]. apply String.eqb_refl.
Qed.

(** X6: in every store the server can reach, a user is identified by any
    one of its id, its username and its access code, and the required
    paths of every stored user are non-empty. *)
Theorem reachable_accounts_unique w u1 u2 :
  reachable env w ->
  In u1 (users w) ->
  In u2 (users w) ->
  (username u1 <> "" /\ password_hash u1 <> "" /\ family_code u1 <> "")
  /\ (_id u1 = _id u2 \/ username u1 = username u2
      \/ family_code u1 = family_code u2 -> u1 = u2).
Proof.
  intros Hreach H1 H2.
  destruct (reachable_accounts_ok _ Hreach) as (Hid & Hname & Hcode & Hall).
  apply list_elem_of_In in H1, H2. split.
  - rewrite Forall_forall in Hall. destruct (Hall u1 H1) as [Hv _].
    unfold validate_user in Hv.
    apply andb_true_iff in Hv as [Hv H3]. apply andb_true_iff in Hv as [Hv1 Hv2].
    apply negb_true_iff in Hv1, Hv2, H3.
    by rewrite !String.eqb_neq in *.
  - intros [E|[E|E]].
    + by apply (NoDup_fmap_inj_elem _id (users w)).
    + by apply (NoDup_fmap_inj_elem username (users w)).
    + by apply (NoDup_fmap_inj_elem family_code (users w)).
Qed.

(** X7: no request removes a user or alters the id, username, password
    hash or access code of a stored user.  The list of accounts stays as it
    is, or, on a registration, grows at its end by the one account made of
    the fresh id, the requested username, the hash of the password and the
    generated code. *)
Theorem accounts_never_change now req w :
  account <$> users (handle env now req w).1 = account <$> users w
  \/ exists uname password,
       req = Register uname password
       /\ account <$> users (handle env now req w).1
          = (account <$> users w)
            ++ [(next_oid w, uname, bcrypt_hash env password,
                 (generateCode env w).1)].
Proof.
  assert (Hcase : (exists u p, req = Register u p)
                  \/ (forall u p, req <> Register u p))
    by (destruct req; first [left; by eauto|by right]).
  destruct Hcase as [(u & p & ->)|Hreq].
  - simpl. destruct (register_cases u p w)
      as [(x & _ & ->)|(_ & _ & [(e & _ & -> & _)|(_ & -> & _)])];
      [by left|by left|].
    right. exists u, p. split; [done|]. by rewrite fmap_app.
  - left. by apply handle_accounts.
Qed.

(** X8: a registration answered 200 has appended one user, with the given
    username, the hash of the given password, the returned code and no
    viewer; before it neither the username nor the code resolved to anyone,
    after it both resolve to the new user. *)
Theorem register_success uname password w w' code :
  register env uname password w = (w', Some (json (BUserCreated code))) ->
  exists newUser,
    users w' = users w ++ [newUser]
    /\ username newUser = uname
    /\ password_hash newUser = bcrypt_hash env password
    /\ family_code newUser = code
    /\ viewers newUser = []
    /\ findOne_username uname w = None
    /\ findOne_family_code code w = None
    /\ findOne_username uname w' = Some newUser
    /\ findOne_family_code code w' = Some newUser.
Proof.
  intros Hreg.
  destruct (register_created _ _ _ _ _ Hreg) as (_ & Hu & H1 & H2 & H3 & H4).
  eexists. split; [exact Hu|]. by repeat split.
Qed.

(** X9: when [bcrypt.compare] accepts a password against its own hash, a
    login with the credentials of a registration that has just succeeded
    opens a session: it answers 200 with a token signed for the new user's
    id and with the access code the registration returned. *)
Theorem register_then_login uname password w w' code now :
  bcrypt_compare env password (bcrypt_hash env password) = true ->
  register env uname password w = (w', Some (json (BUserCreated code))) ->
  login env (Some (VStr uname)) (Some (VStr password)) now w' =
    (w', Some (json (BSession (jwt_sign env (next_oid w) now) code))).
Proof.
  intros Hcmp Hreg.
  destruct (register_created _ _ _ _ _ Hreg) as (_ & _ & _ & _ & Hfind & _).
  unfold login, resolve_username. rewrite Hfind. simpl. by rewrite Hcmp.
Qed.

Lemma string_length_nonempty s n : String.length s = S n -> s <> "".
Proof. by destruct s. Qed.

(** X10: in a store the server can reach, with [Math.random] in the unit
    interval and a non-empty hash, registering a non-empty username that is
    not stored succeeds whenever the generated code is not some user's
    already, and answers with that code. *)
Theorem register_succeeds uname password w :
  reachable env w ->
  (forall i, (0 <= Math_random env i)%Q /\ (Math_random env i < 1)%Q) ->
  uname <> "" ->
  bcrypt_hash env password <> "" ->
  findOne_username uname w = None ->
  findOne_family_code (generateCode env w).1 w = None ->
  (register env uname password w).2
    = Some (json (BUserCreated (generateCode env w).1)).
Proof.
  intros Hreach Hrand Hname Hhash Hfresh Hcode.
  destruct (reachable_accounts_ok _ Hreach) as (_ & _ & _ & Hall).
  destruct (register_cases uname password w)
    as [(x & Hx & _)|(_ & _ & [(e & _ & _ & Hins)|(Hres & _)])];
    [congruence| |done].
  exfalso. unfold insert_user in Hins.
  destruct (generateCode_shape env w Hrand) as [Hlen _].
  apply string_length_nonempty in Hlen.
  assert (Hvalid : validate_user
            (mkUser (next_oid w) uname (bcrypt_hash env password)
                    (generateCode env w).1 []) = true).
  { unfold validate_user. cbn [username password_hash family_code].
    apply String.eqb_neq in Hname, Hhash, Hlen. by rewrite Hname, Hhash, Hlen. }
  rewrite Hvalid in Hins. cbn [negb] in Hins.
  destruct (generateCode_calls env w) as (_ & Husers & _).
  change (users (fresh_oid (generateCode env w).2).2)
    with (users (generateCode env w).2) in Hins.
  rewrite Husers in Hins.
  destruct (existsb _ (users w)) eqn:Hex; [|done].
  apply existsb_exists in Hex as (x & Hx & Hor).
  cbn [_id username family_code] in Hor.
  rewrite Forall_forall in Hall.
  destruct (Hall x (proj2 (list_elem_of_In _ _) Hx)) as [_ Hlt].
  apply orb_true_iff in Hor as [Hor|Hc].
  - apply orb_true_iff in Hor as [Hi|Hn].
    + apply Nat.eqb_eq in Hi. lia.
    + apply (find_none _ _ Hfresh) in Hx. congruence.
  - apply (find_none _ _ Hcode) in Hx. congruence.
Qed.


(** X12: when tokens hold no space and a token verifies at a later time
    to the id it was signed for, the token a login returns, sent as
    [Bearer token], authenticates as the user who logged in, and that
    user's listings answer with exactly their records. *)
Theorem login_then_authenticate uname password now w token code now' :
  has_space token = false ->
  (forall id, jwt_verify env (jwt_sign env id now) now' = Some id) ->
  (login env (Some (VStr uname)) (Some (VStr password)) now w).2
    = Some (json (BSession token code)) ->
  exists user,
    findOne_username uname w = Some user
    /\ family_code user = code
    /\ authenticate env (Some ("Bearer" +:+ " " +:+ token)) now' = inr (_id user)
    /\ forall k,
         (list_owned env k (Some ("Bearer" +:+ " " +:+ token)) now' w).2
           = Some (json (BRecords (find_owner k (_id user) w))).
Proof.
  intros Hspace Hjwt Hlogin. unfold login, resolve_username in Hlogin.
  destruct (findOne_username uname w) as [user|]; [|discriminate Hlogin].
  destruct (bcrypt_compare env password (password_hash user));
    [|discriminate Hlogin].
  simpl in Hlogin. unfold json in Hlogin. injection Hlogin as <- <-.
  assert (Hauth : authenticate env
            (Some ("Bearer" +:+ " " +:+ jwt_sign env (_id user) now)) now'
            = inr (_id user)).
  { rewrite authenticate_second_part by apply scheme_header_nonempty.
    rewrite split_space_first by done. rewrite split_space_whole by done.
    simpl. by rewrite Hjwt. }
  exists user. split; [done|]. split; [done|]. split; [done|].
  intros k. unfold list_owned, authenticated. by rewrite Hauth.
Qed.

(** C5: in a store the server can reach, a public listing under a code
    that no stored user has answers 404 with an error body and no record;
    under the access code of a stored user it answers 200 with the records
    of the requested kind whose [owner_id] is that user's id, all of them
    and only them, in collection order.  The store is not changed. *)
Theorem list_public_scoped k code w :
  reachable env w ->
  (list_public k code w).1 = w
  /\ ((forall u, In u (users w) -> family_code u <> code) ->
      (list_public k code w).2 = Some (error 404 "Invalid Access Code"))
  /\ (forall u,
        In u (users w) -> family_code u = code ->
        exists ds,
          (list_public k code w).2 = Some (json (BRecords ds))
          /\ ds = filter (fun d => owner_id d = _id u) (collection k w)
          /\ forall d, d ∈ ds <-> d ∈ collection k w /\ owner_id d = _id u).
Proof.
  intros Hreach.
  destruct (reachable_accounts_ok _ Hreach) as (_ & _ & Hcodes & _).
  unfold list_public. split; [by case_match|]. split.
  - intros Hnone.
    assert (Hfind : findOne_family_code code w = None).
    { apply find_none_intro. intros x Hx. apply String.eqb_neq. by apply Hnone. }
    by rewrite Hfind.
  - intros u Hu Hcode.
    destruct (findOne_family_code code w) as [x|] eqn:Hfind.
    + apply find_some in Hfind as [Hx Ex]. apply String.eqb_eq in Ex.
      assert (x = u).
      { apply (NoDup_fmap_inj_elem family_code (users w));
          [done|by apply list_elem_of_In..|congruence]. }
      subst x. simpl. eexists. split; [done|]. split; [done|].
      intros d. unfold find_owner. rewrite list_elem_of_filter. tauto.
    + apply (find_none _ _ Hfind) in Hu.
      rewrite Hcode, String.eqb_refl in Hu. discriminate Hu.
Qed.

End AccountRoutes.

(** ** Viewers: joining, leaving and reading the list *)

Section ViewerRoutes.

Variable env : Env.

Lemma update_viewers_twice id vs vs' us :
  update_viewers id vs (update_viewers id vs' us) = update_viewers id vs us.
Proof.
  induction us as [|u us IH]; simpl; [done|].
  destruct (Nat.eqb (_id u) id) eqn:E; simpl; rewrite E; [done|].
  by rewrite IH.
Qed.

(** After a save, the id finds the saved document. *)
Lemma update_viewers_findById id vs us u :
  find (fun x => Nat.eqb (_id x) id) us = Some u ->
  find (fun x => Nat.eqb (_id x) id) (update_viewers id vs us)
    = Some (mkUser (_id u) (username u) (password_hash u) (family_code u) vs).
Proof.
  induction us as [|x us IH]; simpl; [done|].
  destruct (Nat.eqb (_id x) id) eqn:E; simpl; rewrite E.
  - by intros [= ->].
  - apply IH.
Qed.

(** With unique ids, the id of a stored user finds that user. *)
Lemma findById_stored w u :
  NoDup (_id <$> users w) -> In u (users w) -> findById (_id u) w = Some u.
Proof.
  intros Hnodup Hu. unfold findById.
  destruct (find _ (users w)) as [x|] eqn:Hfind.
  - apply find_some in Hfind as [Hx E]. apply Nat.eqb_eq in E. f_equal.
    apply list_elem_of_In in Hx, Hu.
    by apply (NoDup_fmap_inj_elem _id (users w)).
  - apply (find_none _ _ Hfind) in Hu. by rewrite Nat.eqb_refl in Hu.
Qed.

(** With unique ids, a save changes the document at the saved user's
    position and no other. *)
Lemma update_viewers_lookup id vs us i u :
  NoDup (_id <$> us) -> us !! i = Some u ->
  update_viewers id vs us !! i =
    Some (if Nat.eqb (_id u) id
          then mkUser (_id u) (username u) (password_hash u) (family_code u) vs
          else u).
Proof.
  revert i. induction us as [|x us IH]; intros i; csimpl; [done|].
  intros [Hx Hnodup]%NoDup_cons Hi.
  destruct (Nat.eqb_spec (_id x) id) as [Hxid|Hxid].
  - destruct i as [|i]; simpl in *.
    + injection Hi as <-. by rewrite Hxid, Nat.eqb_refl.
    + rewrite Hi. destruct (Nat.eqb_spec (_id u) id) as [Huid|]; [|done].
      exfalso. apply Hx. rewrite Hxid, <- Huid.
      apply list_elem_of_fmap_2. by eapply list_elem_of_lookup_2.
  - destruct i as [|i]; simpl in *.
    + injection Hi as <-. by destruct (Nat.eqb_spec (_id x) id).
    + by apply IH.
Qed.

(** X13: in every store the server can reach, whatever JSON values the
    joins carried as names, no viewer entry has the empty name. *)
Theorem reachable_viewer_lists w u v :
  reachable env w ->
  In u (users w) ->
  v ∈ viewers u ->
  name v <> "".
Proof.
  intros Hreach Hu Hv E.
  apply (store_ok_viewers _ _ (reachable_store_ok _ _ Hreach) Hu).
  rewrite <- E. by apply list_elem_of_fmap_2.
Qed.

(** X14: in a store the server can reach, after a join under the owner's
    code with a non-empty name, the owner's own [GET /viewers] answers with
    the former list, followed by the new viewer stamped with the time of
    the join when the name was not in the list. *)
Theorem join_then_get_viewers code n now w user authHeader now' :
  reachable env w ->
  findOne_family_code code w = Some user ->
  n <> "" ->
  authenticate env authHeader now' = inr (_id user) ->
  (get_viewers env authHeader now'
     (join env (Some (VStr code)) (Some (VStr n)) now w).1).2
    = Some (json (BViewers
        (match find (fun v => String.eqb (name v) n) (viewers user) with
         | Some _ => viewers user
         | None => viewers user ++ [mkViewer n now]
         end))).
Proof.
  intros Hreach Hfind Hn Hauth.
  destruct (reachable_store_ok _ _ Hreach) as [Hids _].
  destruct (findOne_family_code_In _ _ _ Hfind) as [Hin _].
  pose proof (findById_stored _ _ Hids Hin) as Hbyid.
  unfold get_viewers, authenticated. rewrite Hauth.
  unfold join, resolve_code. rewrite Hfind. cbn [truthy_val castString].
  destruct (String.eqb_spec n "") as [?|_]; [done|]. cbn [negb].
  change (fun v => strict_eq (name v) (VStr n))
    with (fun v => String.eqb (name v) n).
  destruct (find _ (viewers user)) as [v|] eqn:Hname; cbn [fst].
  - by rewrite Hbyid.
  - unfold findById, save_viewers. simpl.
    by rewrite (update_viewers_findById _ _ _ _ Hbyid).
Qed.

(** X15: in a store the server can reach, leaving right after having
    joined with a non-empty name that was not in the list gives back the
    store as it was before the join. *)
Theorem leave_undoes_join code n now w user :
  reachable env w ->
  findOne_family_code code w = Some user ->
  n <> "" ->
  find (fun v => String.eqb (name v) n) (viewers user) = None ->
  (join env (Some (VStr code)) (Some (VStr n)) now w).2
    = Some (json (BJoined (Some (VStr code))))
  /\ (leave env (Some (VStr code)) (Some (VStr n))
        (join env (Some (VStr code)) (Some (VStr n)) now w).1).2
     = Some (json BLeft)
  /\ (leave env (Some (VStr code)) (Some (VStr n))
        (join env (Some (VStr code)) (Some (VStr n)) now w).1).1 = w.
Proof.
  intros Hreach Hfind Hn Hnew.
  destruct (reachable_store_ok _ _ Hreach) as [Hids _].
  destruct (findOne_family_code_In _ _ _ Hfind) as [Hin _].
  assert (Hjoin : join env (Some (VStr code)) (Some (VStr n)) now w
                  = (save_viewers user (viewers user ++ [mkViewer n now]) w,
                     Some (json (BJoined (Some (VStr code)))))).
  { unfold join, resolve_code. rewrite Hfind. cbn [truthy_val castString].
    destruct (String.eqb_spec n "") as [?|_]; [done|]. cbn [negb].
    change (fun v => strict_eq (name v) (VStr n))
      with (fun v => String.eqb (name v) n).
    by rewrite Hnew. }
  rewrite Hjoin. cbn [fst snd]. split; [done|].
  unfold leave, resolve_code.
  assert (Hfind' : findOne_family_code code
             (save_viewers user (viewers user ++ [mkViewer n now]) w)
           = Some (mkUser (_id user) (username user) (password_hash user)
                          (family_code user)
                          (viewers user ++ [mkViewer n now]))).
  { unfold findOne_family_code, save_viewers. simpl.
    by apply update_viewers_found. }
  rewrite Hfind'. cbn [truthy_val].
  destruct (String.eqb_spec n "") as [?|_]; [done|]. cbn [negb fst snd viewers _id].
  split; [done|].
  rewrite filter_strict_ne.
  rewrite filter_app, filter_cons_False, filter_nil, app_nil_r
    by (simpl; intros H; by apply H).
  rewrite filter_all.
  - unfold save_viewers. simpl. rewrite update_viewers_twice.
    rewrite update_viewers_same by done. by destruct w.
  - intros v Hv E. apply find_name_None in Hnew. apply Hnew.
    rewrite <- E. by apply list_elem_of_fmap_2.
Qed.

(** X16: a join or a leave under a code that resolves to no user answers
    404 "Invalid Access Code"; under a code that resolves, without a name or
    with a falsy one such as the empty name, it answers with its success
    message.  In all those cases the store is left as it was. *)
Theorem membership_without_effect code nm now w :
  (findOne_family_code code w = None ->
   join env (Some (VStr code)) nm now w
     = (w, Some (error 404 "Invalid Access Code"))
   /\ leave env (Some (VStr code)) nm w
      = (w, Some (error 404 "Invalid Access Code")))
  /\ (findOne_family_code code w <> None ->
      truthy_val nm = false ->
      join env (Some (VStr code)) nm now w
        = (w, Some (json (BJoined (Some (VStr code)))))
      /\ leave env (Some (VStr code)) nm w = (w, Some (json BLeft))).
Proof.
  unfold join, leave, resolve_code. split.
  - by intros ->.
  - intros Hfind Hnm. destruct (findOne_family_code code w); [|done].
    destruct nm as [n|]; [|done]. by rewrite Hnm.
Qed.

(** X17: in a store the server can reach, whatever the request and the
    JSON values it carries, every user stays at its position with its
    account unchanged, and its viewer list changes only through a join or a
    leave whose name is truthy and whose code filter resolves to that user;
    when that code is a string, it is the user's own access code. *)
Theorem viewers_change_only_by_code now req w i u :
  reachable env w ->
  users w !! i = Some u ->
  exists u',
    users (handle env now req w).1 !! i = Some u'
    /\ account u' = account u
    /\ (viewers u' <> viewers u ->
        exists c n,
          (req = Join c (Some n) \/ req = Leave c (Some n))
          /\ truthy_val (Some n) = true
          /\ resolve_code env c w = inr (Some u)
          /\ forall s, c = Some (VStr s) -> s = family_code u).
Proof.
  intros Hreach Hi.
  destruct (reachable_store_ok _ _ Hreach) as [Hids _].
  assert (Hsame : users (handle env now req w).1 = users w ->
            exists u',
              users (handle env now req w).1 !! i = Some u'
              /\ account u' = account u
              /\ (viewers u' <> viewers u ->
                  exists c n,
                    (req = Join c (Some n) \/ req = Leave c (Some n))
                    /\ truthy_val (Some n) = true
                    /\ resolve_code env c w = inr (Some u)
                    /\ forall s, c = Some (VStr s) -> s = family_code u)).
  { intros ->. exists u. by repeat split. }
  assert (Hsave : forall user vs,
            In user (users w) ->
            exists u',
              update_viewers (_id user) vs (users w) !! i = Some u'
              /\ account u' = account u
              /\ (viewers u' <> viewers u -> u = user)).
  { intros user vs Huser.
    rewrite (update_viewers_lookup _ _ _ _ _ Hids Hi).
    destruct (Nat.eqb_spec (_id u) (_id user)) as [E|E].
    - eexists. split; [done|]. split; [done|]. intros _.
      apply (NoDup_fmap_inj_elem _id (users w)); [done| |by apply list_elem_of_In|done].
      by eapply list_elem_of_lookup_2.
    - exists u. by repeat split. }
  assert (Hstring : forall c s,
            resolve_code env c w = inr (Some u) -> c = Some (VStr s) ->
            s = family_code u).
  { intros c s Hres ->. simpl in Hres. injection Hres as Hres.
    by apply findOne_family_code_In in Hres as [_ <-]. }
  destruct req as [|un p|un p|c n|c n|h|k0 c|k0 h|k0 h b|k0 h id];
    cbn [handle] in *.
  - by apply Hsame.
  - destruct (register_cases env un p w)
      as [(x & _ & Hout)|(_ & _ & [(e & _ & Hu & _)|(_ & Hu & _)])].
    + apply Hsame. by rewrite Hout.
    + by apply Hsame.
    + rewrite Hu. exists u. rewrite lookup_app_l by by eapply lookup_lt_Some.
      by repeat split.
  - apply Hsame. by rewrite login_store.
  - destruct (join_cases env c n now w)
      as [Hw|(user & m & s & Hres & -> & Ht & _ & _ & _ & Hw)].
    { apply Hsame. by rewrite Hw. }
    rewrite Hw. cbn [fst].
    pose proof (resolve_code_In _ _ _ _ Hres) as Huser.
    destruct (Hsave user (viewers user ++ [mkViewer s now]) Huser)
      as (u' & Hu' & Hacc & Hv).
    exists u'. split; [done|]. split; [done|]. intros Hne.
    exists c, m. rewrite (Hv Hne) in *. split; [by left|]. split; [done|].
    split; [done|]. intros s0. by apply Hstring.
  - destruct (leave_cases env c n w)
      as [Hw|(user & m & Hres & -> & Ht & Hw)].
    { apply Hsame. by rewrite Hw. }
    rewrite Hw. cbn [fst].
    pose proof (resolve_code_In _ _ _ _ Hres) as Huser.
    destruct (Hsave user
                (filter (fun v => strict_eq (name v) m = false) (viewers user))
                Huser)
      as (u' & Hu' & Hacc & Hv).
    exists u'. split; [done|]. split; [done|]. intros Hne.
    exists c, m. rewrite (Hv Hne) in *. split; [by right|]. split; [done|].
    split; [done|]. intros s0. by apply Hstring.
  - apply Hsame. unfold get_viewers, authenticated. by repeat case_match.
  - apply Hsame. unfold list_public. by case_match.
  - apply Hsame. unfold list_owned, authenticated. by case_match.
  - apply Hsame. apply create_users.
  - apply Hsame. apply delete_users.
Qed.

(** X18: behind the scheme and the token, anything that follows a further
    space in the Authorization header is ignored.  In particular two spaces
    after the scheme make the token the empty string, whatever comes
    next. *)
Theorem authenticate_trailing_ignored scheme tok rest now :
  has_space scheme = false ->
  has_space tok = false ->
  split_space (scheme +:+ " " +:+ tok +:+ " " +:+ rest) !! 1 = Some tok
  /\ authenticate env (Some (scheme +:+ " " +:+ tok +:+ " " +:+ rest)) now
     = authenticate env (Some (scheme +:+ " " +:+ tok)) now.
Proof.
  intros Hscheme Htok.
  assert (Hlong : split_space (scheme +:+ " " +:+ tok +:+ " " +:+ rest) !! 1
                  = Some tok).
  { rewrite (split_space_first scheme _ Hscheme).
    by rewrite (split_space_first tok _ Htok). }
  split; [done|].
  rewrite !authenticate_second_part by apply scheme_header_nonempty.
  rewrite Hlong, (split_space_first scheme _ Hscheme).
  by rewrite (split_space_whole _ Htok).
Qed.

End ViewerRoutes.

(** ** The further properties on sample runs *)

Lemma world_alice_note_reachable : reachable sample_env world_alice_note.
Proof. exact (reachable_step sample_env 9 _ world_alice_mom world_alice_mom_reachable). Qed.

Lemma create_alice_note :
  (create sample_env Note (Some ("Bearer " +:+ alice_token)) forged_note 9
     world_alice_mom).2 = Some (json (BRecord alice_note)).
Proof. vm_compute. reflexivity. Qed.

Lemma alice_note_stored : alice_note ∈ collection Note world_alice_note.
Proof. apply list_elem_of_In. vm_compute. by left. Qed.

Lemma sample_jwt_roundtrip id t t' :
  jwt_verify sample_env (jwt_sign sample_env id t) t' = Some id.
Proof.
  assert (Hlen : String.length (string_of_list_ascii (replicate id "i"%char)) = id)
    by (induction id as [|id IH]; simpl; [done|]; by rewrite IH).
  assert (Hverify : forall s,
            jwt_verify sample_env ("jwt." +:+ s) t' = Some (String.length s))
    by (intros [|c s]; reflexivity).
  change (jwt_sign sample_env id t)
    with ("jwt." +:+ string_of_list_ascii (replicate id "i"%char)).
  by rewrite Hverify, Hlen.
Qed.

Lemma list_public_scoped_witness :
  (reachable sample_env world_alice_note
   /\ In alice_with_mom (users world_alice_note)
   /\ family_code alice_with_mom = "AAAAA"
   /\ forall u, In u (users world_alice_note) -> family_code u <> "ZZZZZ")
  /\ (list_public Note "AAAAA" world_alice_note).2
       = Some (json (BRecords [alice_note]))
  /\ (list_public Note "ZZZZZ" world_alice_note).2
       = Some (error 404 "Invalid Access Code").
Proof.
  assert (H1 : In alice_with_mom (users world_alice_note)) by (by left).
  assert (H2 : family_code alice_with_mom = "AAAAA") by reflexivity.
  assert (H3 : forall u, In u (users world_alice_note) -> family_code u <> "ZZZZZ").
  { intros u [<-|[]]. discriminate. }
  split; [exact (conj world_alice_note_reachable (conj H1 (conj H2 H3)))|].
  split.
  - destruct (list_public_scoped sample_env Note "AAAAA" world_alice_note
                world_alice_note_reachable) as (_ & _ & Hvalid).
    destruct (Hvalid alice_with_mom H1 H2) as (ds & Hres & Hds & _).
    rewrite Hres, Hds. reflexivity.
  - destruct (list_public_scoped sample_env Note "ZZZZZ" world_alice_note
                world_alice_note_reachable) as (_ & Hnone & _).
    exact (Hnone H3).
Defined.

Lemma records_change_only_by_owner_witness :
  (alice_note ∈ collection Note world_alice_note
   /\ alice_note ∉ collection Note world_alice_mom)
  /\ exists authHeader reqBody,
       Create Note (Some ("Bearer " +:+ alice_token)) forged_note
         = Create Note authHeader reqBody
       /\ authenticate sample_env authHeader 9 = inr 0.
Proof.
  assert (H1 : alice_note ∈ collection Note world_alice_note)
    by exact alice_note_stored.
  assert (H2 : alice_note ∉ collection Note world_alice_mom)
    by apply not_elem_of_nil.
  split; [by split|].
  exact (proj2 (records_change_only_by_owner sample_env 9
                  (Create Note (Some ("Bearer " +:+ alice_token)) forged_note)
                  world_alice_mom Note alice_note) H1 H2).
Defined.

Lemma create_then_list_witness :
  (create sample_env Note (Some ("Bearer " +:+ alice_token)) forged_note 9
     world_alice_mom).2 = Some (json (BRecord alice_note))
  /\ find_owner Note 0 world_alice_note
       = find_owner Note 0 world_alice_mom ++ [alice_note]
  /\ (list_public Note "AAAAA" world_alice_note).2
       = Some (json (BRecords (find_owner Note 0 world_alice_mom ++ [alice_note]))).
Proof.
  split; [exact create_alice_note|].
  destruct (create_then_list sample_env Note _ forged_note 9 world_alice_mom
              alice_note create_alice_note) as (_ & Hown & _ & _ & Hpub).
  split; [exact Hown|].
  exact (Hpub "AAAAA" alice_with_mom eq_refl eq_refl).
Defined.

Lemma delete_undoes_create_witness :
  ((create sample_env Note (Some ("Bearer " +:+ alice_token)) forged_note 9
      world_alice_mom).2 = Some (json (BRecord alice_note))
   /\ castObjectId sample_env note_route_id = Some (doc_id alice_note)
   /\ authenticate sample_env (Some "Token jwt.") 20 = inr (owner_id alice_note))
  /\ collection Note
       (delete sample_env Note (Some "Token jwt.") note_route_id 20
          world_alice_note).1
     = collection Note world_alice_mom.
Proof.
  assert (Hc : castObjectId sample_env note_route_id = Some (doc_id alice_note))
    by reflexivity.
  assert (H : authenticate sample_env (Some "Token jwt.") 20
              = inr (owner_id alice_note)) by reflexivity.
  split; [split; [exact create_alice_note|by split]|].
  exact (proj1 (proj2 (delete_undoes_create sample_env Note _ forged_note 9
                         world_alice_mom alice_note (Some "Token jwt.")
                         note_route_id 20 create_alice_note Hc H))).
Defined.

Lemma delete_removes_record_witness :
  (reachable sample_env world_alice_note
   /\ castObjectId sample_env note_route_id = Some (doc_id alice_note)
   /\ authenticate sample_env (Some "Bearer jwt.") 20 = inr (owner_id alice_note)
   /\ alice_note ∈ collection Note world_alice_note)
  /\ alice_note ∉ collection Note
       (delete sample_env Note (Some "Bearer jwt.") note_route_id 20
          world_alice_note).1.
Proof.
  assert (Hc : castObjectId sample_env note_route_id = Some (doc_id alice_note))
    by reflexivity.
  assert (H : authenticate sample_env (Some "Bearer jwt.") 20
              = inr (owner_id alice_note)) by reflexivity.
  split; [split; [exact world_alice_note_reachable|split; [exact Hc|split;
                  [exact H|exact alice_note_stored]]]|].
  exact (proj1 (proj2 (delete_removes_record sample_env Note _ note_route_id 20
                         world_alice_note alice_note
                         world_alice_note_reachable Hc H alice_note_stored))).
Defined.

Lemma reachable_accounts_unique_witness :
  (reachable sample_env world_alice_mom /\ In alice_with_mom (users world_alice_mom))
  /\ username alice_with_mom <> "" /\ password_hash alice_with_mom <> ""
  /\ family_code alice_with_mom <> "".
Proof.
  assert (H : In alice_with_mom (users world_alice_mom)) by (by left).
  split; [split; [exact world_alice_mom_reachable|exact H]|].
  exact (proj1 (reachable_accounts_unique sample_env world_alice_mom
                  alice_with_mom alice_with_mom world_alice_mom_reachable H H)).
Defined.

Lemma register_success_witness :
  register sample_env "alice" "pw1" init
    = (world_alice, Some (json (BUserCreated "AAAAA")))
  /\ exists newUser,
       users world_alice = users init ++ [newUser]
       /\ findOne_family_code "AAAAA" world_alice = Some newUser.
Proof.
  assert (H : register sample_env "alice" "pw1" init
              = (world_alice, Some (json (BUserCreated "AAAAA"))))
    by reflexivity.
  split; [exact H|].
  destruct (register_success sample_env "alice" "pw1" init world_alice "AAAAA" H)
    as (newUser & Hu & _ & _ & _ & _ & _ & _ & _ & Hc).
  exists newUser. split; [exact Hu|exact Hc].
Defined.

Lemma register_then_login_witness :
  (bcrypt_compare sample_env "pw1" (bcrypt_hash sample_env "pw1") = true
   /\ register sample_env "alice" "pw1" init
        = (world_alice, Some (json (BUserCreated "AAAAA"))))
  /\ login sample_env (Some (VStr "alice")) (Some (VStr "pw1")) 7 world_alice
       = (world_alice, Some (json (BSession alice_token "AAAAA"))).
Proof.
  assert (H1 : bcrypt_compare sample_env "pw1" (bcrypt_hash sample_env "pw1") = true)
    by reflexivity.
  assert (H2 : register sample_env "alice" "pw1" init
               = (world_alice, Some (json (BUserCreated "AAAAA"))))
    by reflexivity.
  split; [by split|].
  exact (register_then_login sample_env "alice" "pw1" init world_alice "AAAAA" 7
           H1 H2).
Defined.

Lemma register_succeeds_witness :
  (reachable sample_env init
   /\ "alice" <> "" /\ bcrypt_hash sample_env "pw1" <> ""
   /\ findOne_username "alice" init = None
   /\ findOne_family_code (generateCode sample_env init).1 init = None)
  /\ (register sample_env "alice" "pw1" init).2
       = Some (json (BUserCreated "AAAAA")).
Proof.
  assert (H1 : "alice" <> "") by discriminate.
  assert (H2 : bcrypt_hash sample_env "pw1" <> "") by discriminate.
  assert (H3 : findOne_username "alice" init = None) by reflexivity.
  assert (H4 : findOne_family_code (generateCode sample_env init).1 init = None)
    by reflexivity.
  split; [split; [exact (reachable_init sample_env)|by repeat split]|].
  exact (register_succeeds sample_env "alice" "pw1" init
           (reachable_init sample_env) sample_random_unit H1 H2 H3 H4).
Defined.


Lemma login_then_authenticate_witness :
  (has_space alice_token = false
   /\ (forall id, jwt_verify sample_env (jwt_sign sample_env id 1) 2 = Some id)
   /\ (login sample_env (Some (VStr "alice")) (Some (VStr "pw1")) 1
         world_alice).2
        = Some (json (BSession alice_token "AAAAA")))
  /\ authenticate sample_env (Some ("Bearer" +:+ " " +:+ alice_token)) 2 = inr 0.
Proof.
  assert (H1 : has_space alice_token = false) by reflexivity.
  assert (H2 : forall id, jwt_verify sample_env (jwt_sign sample_env id 1) 2 = Some id)
    by (intros id; apply sample_jwt_roundtrip).
  assert (H3 : (login sample_env (Some (VStr "alice")) (Some (VStr "pw1")) 1
                  world_alice).2
               = Some (json (BSession alice_token "AAAAA"))) by reflexivity.
  split; [by repeat split|].
  destruct (login_then_authenticate sample_env "alice" "pw1" 1 world_alice
              alice_token "AAAAA" 2 H1 H2 H3) as (user & Hfind & _ & Hauth & _).
  change (Some alice_user = Some user) in Hfind. injection Hfind as <-.
  exact Hauth.
Defined.

Lemma reachable_viewer_lists_witness :
  (reachable sample_env world_alice_fives
   /\ In alice_with_fives (users world_alice_fives)
   /\ mkViewer "5" 7 ∈ viewers alice_with_fives)
  /\ name (mkViewer "5" 7) <> "".
Proof.
  assert (Hr : reachable sample_env world_alice_fives)
    by exact (reachable_step sample_env 7 _ _
                (reachable_step sample_env 6 _ _ world_alice_reachable)).
  assert (H : In alice_with_fives (users world_alice_fives)) by (by left).
  assert (Hv : mkViewer "5" 7 ∈ viewers alice_with_fives)
    by (apply list_elem_of_In; right; by left).
  split; [by repeat split|].
  exact (reachable_viewer_lists sample_env world_alice_fives alice_with_fives
           (mkViewer "5" 7) Hr H Hv).
Defined.

Lemma join_then_get_viewers_witness :
  (reachable sample_env world_alice
   /\ findOne_family_code "AAAAA" world_alice = Some alice_user
   /\ "Mom" <> ""
   /\ authenticate sample_env (Some "Bearer jwt.") 8 = inr (_id alice_user))
  /\ (get_viewers sample_env (Some "Bearer jwt.") 8 world_alice_mom).2
       = Some (json (BViewers [mkViewer "Mom" 5])).
Proof.
  assert (H1 : findOne_family_code "AAAAA" world_alice = Some alice_user)
    by reflexivity.
  assert (H2 : "Mom" <> "") by discriminate.
  assert (H3 : authenticate sample_env (Some "Bearer jwt.") 8 = inr (_id alice_user))
    by reflexivity.
  split; [split; [exact world_alice_reachable|by repeat split]|].
  exact (join_then_get_viewers sample_env "AAAAA" "Mom" 5 world_alice alice_user
           (Some "Bearer jwt.") 8 world_alice_reachable H1 H2 H3).
Defined.

Lemma leave_undoes_join_witness :
  (reachable sample_env world_alice
   /\ findOne_family_code "AAAAA" world_alice = Some alice_user
   /\ "Mom" <> ""
   /\ find (fun v => String.eqb (name v) "Mom") (viewers alice_user) = None)
  /\ (leave sample_env (Some (VStr "AAAAA")) (Some (VStr "Mom"))
        world_alice_mom).1 = world_alice.
Proof.
  assert (H1 : findOne_family_code "AAAAA" world_alice = Some alice_user)
    by reflexivity.
  assert (H2 : "Mom" <> "") by discriminate.
  assert (H3 : find (fun v => String.eqb (name v) "Mom") (viewers alice_user) = None)
    by reflexivity.
  split; [split; [exact world_alice_reachable|by repeat split]|].
  exact (proj2 (proj2 (leave_undoes_join sample_env "AAAAA" "Mom" 5 world_alice
                         alice_user world_alice_reachable H1 H2 H3))).
Defined.

Lemma membership_without_effect_witness :
  (findOne_family_code "ZZZZZ" world_alice = None
   /\ findOne_family_code "AAAAA" world_alice <> None
   /\ truthy_val (Some (VStr "")) = false)
  /\ join sample_env (Some (VStr "ZZZZZ")) (Some (VStr "Mom")) 5 world_alice
       = (world_alice, Some (error 404 "Invalid Access Code"))
  /\ leave sample_env (Some (VStr "AAAAA")) (Some (VStr "")) world_alice
       = (world_alice, Some (json BLeft)).
Proof.
  assert (H1 : findOne_family_code "ZZZZZ" world_alice = None) by reflexivity.
  assert (H2 : findOne_family_code "AAAAA" world_alice <> None) by discriminate.
  assert (H3 : truthy_val (Some (VStr "")) = false) by reflexivity.
  split; [by repeat split|]. split.
  - exact (proj1 (proj1 (membership_without_effect sample_env "ZZZZZ"
                           (Some (VStr "Mom")) 5 world_alice) H1)).
  - exact (proj2 (proj2 (membership_without_effect sample_env "AAAAA"
                           (Some (VStr "")) 5 world_alice) H2 H3)).
Defined.

(** A join whose code is the operator object [{ $ne: null }] resolves
    alice without carrying her access code. *)
Lemma viewers_change_only_by_code_witness :
  (reachable sample_env world_alice /\ users world_alice !! 0 = Some alice_user)
  /\ exists u',
       users (handle sample_env 5
                (Join (Some (VObj [("$ne", VNull)])) (Some (VStr "Mom")))
                world_alice).1 !! 0 = Some u'
       /\ account u' = account alice_user
       /\ viewers u' <> viewers alice_user
       /\ resolve_code sample_env (Some (VObj [("$ne", VNull)])) world_alice
          = inr (Some alice_user).
Proof.
  assert (H : users world_alice !! 0 = Some alice_user) by reflexivity.
  split; [split; [exact world_alice_reachable|exact H]|].
  destruct (viewers_change_only_by_code sample_env 5
              (Join (Some (VObj [("$ne", VNull)])) (Some (VStr "Mom")))
              world_alice 0 alice_user world_alice_reachable H)
    as (u' & Hu' & Hacc & Hchange).
  exists u'. split; [exact Hu'|]. split; [exact Hacc|].
  assert (Hne : viewers u' <> viewers alice_user).
  { change (Some (mkUser 0 "alice" "$2a$10$pw1" "AAAAA" [mkViewer "Mom" 5])
            = Some u') in Hu'.
    injection Hu' as <-. discriminate. }
  split; [exact Hne|].
  destruct (Hchange Hne) as (c & n & [Hreq|Hreq] & _ & Hres & _);
    [|discriminate Hreq].
  injection Hreq as <- <-. exact Hres.
Defined.

Lemma authenticate_trailing_ignored_witness :
  (has_space "Bearer" = false /\ has_space "" = false)
  /\ authenticate sample_env (Some "Bearer  jwt.") 3
     = authenticate sample_env (Some "Bearer ") 3.
Proof.
  assert (H1 : has_space "Bearer" = false) by reflexivity.
  assert (H2 : has_space "" = false) by reflexivity.
  split; [by split|].
  exact (proj2 (authenticate_trailing_ignored sample_env "Bearer" "" "jwt." 3
                  H1 H2)).
Defined.
